(** * file_py: the permission compiler, the size parser and the directory
      listing of [file_py.py], embedded in Rocq.

    Python values are modelled as follows.
    - [int] is unbounded, so it is [Z]; [|], [&] and [~] are [Z.lor],
      [Z.land] and [Z.lnot] (two's complement on an unbounded integer, as in
      Python).
    - [str] is [string]; a character is a code point below 256.  The
      functions below compare characters with ASCII letters, digits and
      signs, and test them for white space; nothing else is asked of them.
    - a [dict] whose iteration order is used is an association list in
      insertion order.
    - an exception is a value of [exn]; a function that can raise returns
      a [result]. *)

From Stdlib Require Import ZArith Lia Bool List Ascii String.
From stdpp Require Import base list.
From Equations Require Import Equations.
Import ListNotations.

Local Open Scope string_scope.
Local Open Scope Z_scope.

(** ** Exceptions *)

Inductive exn : Type :=
  | ValueError (msg : string)
  | KeyError
  | FileNotFoundError (msg : string)
  | NotADirectoryError (msg : string)
  | OSError (msg : string)
  | ReError (msg : string)
  | RuntimeError (path : string) (cause : exn).

Inductive result (A : Type) : Type :=
  | Ok (a : A)
  | Raise (e : exn).

Arguments Ok {A} a.
Arguments Raise {A} e.

Definition bind {A B : Type} (r : result A) (k : A -> result B) : result B :=
  match r with
  | Ok a => k a
  | Raise e => Raise e
  end.

#[global] Instance result_ret : MRet result := @Ok.
#[global] Instance result_bind : MBind result :=
  fun A B k r => bind r k.

(** [for x in xs: s = body x s], where the body may raise. *)
Fixpoint for_each {A S : Type} (xs : list A) (body : A -> S -> result S)
    (s : S) : result S :=
  match xs with
  | [] => Ok s
  | x :: xs' => s' ← body x s; for_each xs' body s'
  end.

Definition is_value_error {A : Type} (r : result A) : bool :=
  match r with Raise (ValueError _) => true | _ => false end.

(** ** The string methods the source calls *)

Module PyStr.

Definition chars (s : string) : list ascii := list_ascii_of_string s.

(** [c in "..."] for a single character. *)
Definition mem (c : ascii) (set : string) : bool :=
  existsb (Ascii.eqb c) (chars set).

(** [str.isspace] on a code point below 256. *)
Definition is_space (c : ascii) : bool :=
  let n := N_of_ascii c in
  ((9 <=? n) && (n <=? 13) || (28 <=? n) && (n <=? 32)
   || (n =? 133) || (n =? 160))%N.

Definition is_digit (c : ascii) : bool :=
  let n := N_of_ascii c in ((48 <=? n) && (n <=? 57))%N.

Fixpoint lstrip (s : string) : string :=
  match s with
  | EmptyString => EmptyString
  | String c s' => if is_space c then lstrip s' else s
  end.

Fixpoint rstrip (s : string) : string :=
  match s with
  | EmptyString => EmptyString
  | String c s' =>
      match rstrip s' with
      | EmptyString => if is_space c then EmptyString
                       else String c EmptyString
      | r => String c r
      end
  end.

Definition strip (s : string) : string := rstrip (lstrip s).

(** [s.split(sep)] for a one-character separator: one more piece than
    there are separators, empty pieces kept. *)
Fixpoint split (sep : ascii) (s : string) : list string :=
  match s with
  | EmptyString => [EmptyString]
  | String c s' =>
      if Ascii.eqb c sep then EmptyString :: split sep s'
      else match split sep s' with
           | piece :: pieces => String c piece :: pieces
           | [] => [String c EmptyString]
           end
  end.

Definition upper_char (c : ascii) : ascii :=
  let n := N_of_ascii c in
  if ((97 <=? n) && (n <=? 122))%N then ascii_of_N (n - 32) else c.

(** [s.upper()].  Only ASCII letters are changed: no other code point
    below 256 has an upper case that is a digit or one of K, M, G, B,
    which is all [human_to_bytes] asks of the result. *)
Fixpoint upper (s : string) : string :=
  match s with
  | EmptyString => EmptyString
  | String c s' => String (upper_char c) (upper s')
  end.

Definition startswith (s pre : string) : bool := String.prefix pre s.

(** The longest prefix whose characters satisfy [f], and the rest: what a
    greedy [[...]*] consumes. *)
Fixpoint span (f : ascii -> bool) (s : string) : string * string :=
  match s with
  | EmptyString => (EmptyString, EmptyString)
  | String c s' =>
      if f c then let (a, b) := span f s' in (String c a, b)
      else (EmptyString, s)
  end.

Definition digit_value (c : ascii) : Z := Z.of_N (N_of_ascii c) - 48.

(** The number a string of ASCII digits writes in base ten. *)
Definition int_value (s : string) : Z :=
  fold_left (fun acc c => 10 * acc + digit_value c) (chars s) 0.

(** The guard of CPython on the conversion of a decimal string:
    [max_str_digits] is the interpreter's setting
    ([sys.get_int_max_str_digits()], 4300 unless changed, 0 for no limit, and
    0 in the versions that have no such limit); a string is refused when it
    has more than 640 digits and more digits than a non-zero limit.  Leading
    zeros count as digits. *)
Definition int_limit_exceeded (max_str_digits : nat) (s : string) : bool :=
  let digits := String.length s in
  ((640 <? digits) && (0 <? max_str_digits) && (max_str_digits <? digits))%nat.

(** [int(s)] on a non-empty string of ASCII digits. *)
Definition int (max_str_digits : nat) (s : string) : result Z :=
  if int_limit_exceeded max_str_digits s then
    Raise (ValueError "Exceeds the limit for integer string conversion")
  else Ok (int_value s).

End PyStr.

(** ** [symbolic_to_octal] *)

Module Stat.
Definition S_IRUSR : Z := 256.
Definition S_IWUSR : Z := 128.
Definition S_IXUSR : Z := 64.
Definition S_IRGRP : Z := 32.
Definition S_IWGRP : Z := 16.
Definition S_IXGRP : Z := 8.
Definition S_IROTH : Z := 4.
Definition S_IWOTH : Z := 2.
Definition S_IXOTH : Z := 1.
End Stat.

(** A [dict] keyed by one-character strings, in insertion order. *)
Definition dict (V : Type) : Type := list (ascii * V).

Fixpoint dict_find {V : Type} (d : dict V) (k : ascii) : option V :=
  match d with
  | [] => None
  | (k', v) :: d' => if Ascii.eqb k k' then Some v else dict_find d' k
  end.

(** [d[k]] *)
Definition dict_get {V : Type} (d : dict V) (k : ascii) : result V :=
  match dict_find d k with
  | Some v => Ok v
  | None => Raise KeyError
  end.

(** [k in d] *)
Definition dict_has {V : Type} (d : dict V) (k : ascii) : bool :=
  match dict_find d k with Some _ => true | None => false end.

Definition dict_keys {V : Type} (d : dict V) : list ascii := map fst d.

Definition perm_bits : dict (dict Z) :=
  [ ("u"%char, [("r"%char, Stat.S_IRUSR); ("w"%char, Stat.S_IWUSR);
                ("x"%char, Stat.S_IXUSR)]);
    ("g"%char, [("r"%char, Stat.S_IRGRP); ("w"%char, Stat.S_IWGRP);
                ("x"%char, Stat.S_IXGRP)]);
    ("o"%char, [("r"%char, Stat.S_IROTH); ("w"%char, Stat.S_IWOTH);
                ("x"%char, Stat.S_IXOTH)]);
    ("a"%char,
      [("r"%char, Z.lor (Z.lor Stat.S_IRUSR Stat.S_IRGRP) Stat.S_IROTH);
       ("w"%char, Z.lor (Z.lor Stat.S_IWUSR Stat.S_IWGRP) Stat.S_IWOTH);
       ("x"%char, Z.lor (Z.lor Stat.S_IXUSR Stat.S_IXGRP) Stat.S_IXOTH)]) ].

(** [re.match] of the pattern with the three groups [[ugoa]*], [[+=-]] and
    [[rwx]*] against [s]: the match is anchored at the start only.  The first
    star is greedy and the character after it must be
    a sign, which is not in [[ugoa]], so giving characters back never helps:
    the groups are the longest run of [ugoa], the sign, and the longest run
    of [rwx]; whatever follows is not looked at. *)
Definition re_match_symbolic (s : string) : option (string * ascii * string) :=
  let (who, rest) := PyStr.span (fun c => PyStr.mem c "ugoa") s in
  match rest with
  | String action rest' =>
      if PyStr.mem action "+=-"
      then Some (who, action, fst (PyStr.span (fun c => PyStr.mem c "rwx") rest'))
      else None
  | EmptyString => None
  end.

(** The body of the innermost loop, for one [w] and one [p]. *)
Definition apply_perm (action w p : ascii) (perm : Z) : result Z :=
  bits_w ← dict_get perm_bits w;
  if dict_has bits_w p then
    if Ascii.eqb action "+" then
      b ← dict_get bits_w p; Ok (Z.lor perm b)
    else if Ascii.eqb action "-" then
      b ← dict_get bits_w p; Ok (Z.land perm (Z.lnot b))
    else if Ascii.eqb action "=" then
      perm1 ← (if negb (Ascii.eqb w "a") then
                  for_each (dict_keys bits_w)
                    (fun key acc =>
                       b ← dict_get bits_w key; Ok (Z.land acc (Z.lnot b)))
                    perm
                else Ok perm);
      b ← dict_get bits_w p; Ok (Z.lor perm1 b)
    else Ok perm
  else Ok perm.

(** [for w in who: for p in perms: ...] *)
Definition apply_clause (who : string) (action : ascii) (perms : string)
    (perm : Z) : result Z :=
  for_each (PyStr.chars who)
    (fun w acc => for_each (PyStr.chars perms) (apply_perm action w) acc)
    perm.

(** The body of [for op in operations]. *)
Definition apply_operation (op : string) (perm : Z) : result Z :=
  match re_match_symbolic (PyStr.strip op) with
  | None => Raise (ValueError ("Invalid symbolic permission: " ++ op))
  | Some (who, action, perms) =>
      let who := if String.eqb who "" then "a" else who in
      apply_clause who action perms perm
  end.

(** The loop over the operations, from the accumulator [perm]. *)
Definition apply_operations (operations : list string) (perm : Z) : result Z :=
  for_each operations apply_operation perm.

Definition symbolic_to_octal (symbolic : string) : result Z :=
  let perm := 0 in
  let operations := PyStr.split "," symbolic in
  apply_operations operations perm.

(** ** [human_to_bytes] *)

Definition units : list (string * Z) :=
  [ ("B", 1); ("K", 1024); ("KB", 1024); ("M", 1024 ^ 2); ("MB", 1024 ^ 2);
    ("G", 1024 ^ 3); ("GB", 1024 ^ 3) ].

(** [units.get(unit, default)] *)
Fixpoint units_get (d : list (string * Z)) (unit : string) (default : Z) : Z :=
  match d with
  | [] => default
  | (k, v) :: d' => if String.eqb unit k then v else units_get d' unit default
  end.

(** [re.match] of the pattern with the two groups [\d+] and [[KMGB]?B?],
    anchored at the start only.  Everything after the digits may match the
    empty string, so the greedy choices are never undone: the first group is
    the longest run of digits, which must not be empty, and the second is at
    most one of K, M, G, B followed by at most one B. *)
Definition re_match_size (s : string) : option (string * string) :=
  let (num, rest) := PyStr.span PyStr.is_digit s in
  if String.eqb num "" then None
  else
    let (u1, rest1) :=
      match rest with
      | String c r => if PyStr.mem c "KMGB" then (String c "", r) else ("", rest)
      | EmptyString => ("", rest)
      end in
    let u2 :=
      match rest1 with
      | String c _ => if Ascii.eqb c "B" then "B" else ""
      | EmptyString => ""
      end in
    Some (num, u1 ++ u2).

Definition human_to_bytes (max_str_digits : nat) (s : string) : result Z :=
  match re_match_size (PyStr.upper s) with
  | None => Raise (ValueError ("Invalid size format: " ++ s))
  | Some (num, unit) =>
      n ← PyStr.int max_str_digits num;
      Ok (n * units_get units unit 1)
  end.

(** ** [dir_ls] and [path_filter] *)

(** A [pathlib.Path] as the listing sees it: its string form, its last
    component, and the answers of [is_file], [is_dir] and [is_symlink]
    (the first two follow symbolic links, so more than one may hold). *)
Record Path : Type := mkPath {
  str : string;
  name : string;
  is_file : bool;
  is_dir : bool;
  is_symlink : bool
}.

(** What iterating [path.iterdir()] or [path.rglob(...)] does: yield a
    path and go on, stop, or raise. *)
Inductive iterator : Type :=
  | Stop
  | Yield (p : Path) (rest : iterator)
  | Throw (e : exn).

Fixpoint yielded (it : iterator) : list Path :=
  match it with
  | Yield p rest => p :: yielded rest
  | _ => []
  end.

Fixpoint of_list (ps : list Path) : iterator :=
  match ps with
  | [] => Stop
  | p :: ps' => Yield p (of_list ps')
  end.

(** The state of the file system as [dir_ls] queries it. *)
Record FileSystem : Type := mkFS {
  fs_exists : string -> bool;
  fs_is_dir : string -> bool;
  fs_iterdir : string -> iterator;
  fs_rglob : string -> iterator
}.

(** [if pattern:] on an [Optional[str]]: [None] and the empty string are
    false. *)
Definition truthy (pattern : option string) : option string :=
  match pattern with
  | Some s => if String.eqb s "" then None else Some s
  | None => None
  end.

(** Python compares strings by code point, left to right. *)
Fixpoint sorted_by_str (ps : list Path) : bool :=
  match ps with
  | [] => true
  | p :: ps' =>
      match ps' with
      | [] => true
      | q :: _ => String.leb (str p) (str q) && sorted_by_str ps'
      end
  end.

Section Listing.

(** [Path.match] and [re.search] belong to the Python library.  They
    take the string form of the path and the pattern, and may raise on a
    pattern they reject. *)
Variable path_match : string -> string -> result bool.
Variable re_search : string -> string -> result bool.

(** One of the two pattern blocks of the loops: [None] when no pattern
    is active, otherwise the value the block gives to its variable. *)
Definition match_condition (matcher : string -> string -> result bool)
    (pattern : option string) (invert : bool) (p : Path)
    : result (option bool) :=
  match truthy pattern with
  | None => Ok None
  | Some pat =>
      m ← matcher pat (str p);
      Ok (Some (if m : bool then negb invert else invert))
  end.

(** The type block of [dir_ls]: [Ok true] to go on, [Ok false] for
    [continue]. *)
Definition type_filtering (type_filter : string) (p : Path) : result bool :=
  if negb (String.eqb type_filter "any") then
    if String.eqb type_filter "file" && negb (is_file p) then Ok false
    else if String.eqb type_filter "directory" && negb (is_dir p) then Ok false
    else if String.eqb type_filter "symlink" && negb (is_symlink p) then Ok false
    else Raise (ValueError ("Invalid type_filter: " ++ type_filter))
  else Ok true.

(** The body of the loop of [dir_ls] for one path: [Ok true] when the
    path is appended, [Ok false] when a [continue] is reached. *)
Definition dir_ls_visit (all : bool) (type_filter : string)
    (glob regexp : option string) (invert : bool) (p : Path) : result bool :=
  if negb all && PyStr.startswith (name p) "." then Ok false
  else
    go ← type_filtering type_filter p;
    if negb go then Ok false
    else
      c1 ← match_condition path_match glob invert p;
      if negb (default true c1) then Ok false
      else
        c2 ← match_condition re_search regexp invert p;
        if negb (default true c2) then Ok false
        else Ok true.

(** The path reaches [results.append]. *)
Definition kept (all : bool) (type_filter : string)
    (glob regexp : option string) (invert : bool) (p : Path) : bool :=
  match dir_ls_visit all type_filter glob regexp invert p with
  | Ok true => true
  | _ => false
  end.

Fixpoint dir_ls_loop (all : bool) (type_filter : string)
    (glob regexp : option string) (invert : bool) (it : iterator)
    (results : list Path) : result (list Path) :=
  match it with
  | Stop => Ok results
  | Throw e => Raise e
  | Yield p rest =>
      keep ← dir_ls_visit all type_filter glob regexp invert p;
      dir_ls_loop all type_filter glob regexp invert rest
        (if keep : bool then (results ++ [p])%list else results)
  end.

Definition dir_ls (fs : FileSystem) (path : string) (all recurse : bool)
    (type_filter : string) (glob regexp : option string)
    (invert fail : bool) : result (list Path) :=
  if negb (fs_exists fs path) then
    if fail then
      Raise (FileNotFoundError ("Path " ++ path ++ " does not exist."))
    else Ok []
  else if negb (fs_is_dir fs path) then
    Raise (NotADirectoryError ("Path " ++ path ++ " is not a directory."))
  else
    let iterator := if recurse then fs_rglob fs path else fs_iterdir fs path in
    match dir_ls_loop all type_filter glob regexp invert iterator [] with
    | Ok results => Ok results
    | Raise e => Raise (RuntimeError path e)
    end.

(** The body of the loop of [path_filter]: the value of [match] when
    the final [if match:] is reached. *)
Definition path_filter_match (glob regexp : option string) (invert : bool)
    (p : Path) : result bool :=
  let match_ := true in
  c1 ← match_condition path_match glob invert p;
  let match_ := default match_ c1 in
  c2 ← match_condition re_search regexp invert p;
  let match_ := default match_ c2 in
  Ok match_.

Definition path_filter (paths : list Path) (glob regexp : option string)
    (invert : bool) : result (list Path) :=
  for_each paths
    (fun p filtered =>
       m ← path_filter_match glob regexp invert p;
       Ok (if m : bool then (filtered ++ [p])%list else filtered))
    [].

End Listing.

(** ** Notions used to state the properties *)

(** No bit outside the nine permission bits (0o777 = 511) is set. *)
Definition nine_bits (m : Z) : Prop := Z.land m 511 = m.

(** The text begins with category letters followed by a sign; nothing is
    asked of what comes after the sign. *)
Definition starts_with_who_action (t : string) : Prop :=
  exists who action rest,
    t = who ++ String action rest
    /\ Forall (fun c => In c (PyStr.chars "ugoa")) (PyStr.chars who)
    /\ In action (PyStr.chars "+=-").

(** The clause passes the test of [apply_operation]. *)
Definition accepts (op : string) : bool :=
  match re_match_symbolic (PyStr.strip op) with
  | Some _ => true
  | None => false
  end.

(** The bits that [perm_bits['a']] holds for a permission letter
    (0o444, 0o222, 0o111), and nothing for any other character. *)
Definition all_bit (p : ascii) : Z :=
  if Ascii.eqb p "r" then 292
  else if Ascii.eqb p "w" then 146
  else if Ascii.eqb p "x" then 73
  else 0.

Definition requested_all_bits (perms : string) : Z :=
  fold_right (fun p m => Z.lor (all_bit p) m) 0 (PyStr.chars perms).

(** The grammar of a clause in the words of the specification: the whole
    clause is category letters, one sign, permission letters, and nothing
    else. *)
Definition spec_clause_grammar (clause : string) : bool :=
  let (who, rest) := PyStr.span (fun c => PyStr.mem c "ugoa") clause in
  match rest with
  | String action rest' =>
      PyStr.mem action "+=-"
      && String.eqb (snd (PyStr.span (fun c => PyStr.mem c "rwx") rest')) ""
  | EmptyString => false
  end.

(** The text begins with a decimal digit. *)
Definition starts_with_digit (s : string) : bool :=
  match s with
  | String c _ => PyStr.is_digit c
  | EmptyString => false
  end.

(** The digits the text begins with. *)
Definition leading_digits (s : string) : string :=
  fst (PyStr.span PyStr.is_digit s).

(** A string of [n] nines. *)
Definition nines (n : nat) : string :=
  string_of_list_ascii (List.repeat "9"%char n).

(** The multiplier of the specification: the one of the whole suffix when
    it is a unit of the table, whatever its case, and 1 otherwise. *)
Definition spec_unit_multiplier (suffix : string) : Z :=
  units_get units (PyStr.upper suffix) 1.

(** The multiplier of the source: it is decided by the first character
    after the number. *)
Definition suffix_multiplier (suffix : string) : Z :=
  match PyStr.upper suffix with
  | String c _ =>
      if Ascii.eqb c "K" then 1024
      else if Ascii.eqb c "M" then 1024 ^ 2
      else if Ascii.eqb c "G" then 1024 ^ 3
      else 1
  | EmptyString => 1
  end.

(** A file system in which every path exists and is a directory, and
    listing it, flat or recursive, runs the given iterator. *)
Definition every_directory_lists (entries : iterator) : FileSystem :=
  mkFS (fun _ => true) (fun _ => true) (fun _ => entries) (fun _ => entries).

(** A file system with nothing in it. *)
Definition nothing_exists : FileSystem :=
  mkFS (fun _ => false) (fun _ => false) (fun _ => Stop) (fun _ => Stop).

Definition regular_file (path leaf : string) : Path :=
  mkPath path leaf true false false.

(** ** Masks of the permission table *)

(** [perm_bits[w][p]], and no bit when either key is missing. *)
Definition bit_of (w p : ascii) : Z :=
  match dict_find perm_bits w with
  | Some bits_w =>
      match dict_find bits_w p with
      | Some b => b
      | None => 0
      end
  | None => 0
  end.

(** The bits one category letter holds for the permission letters of
    [perms]. *)
Definition row_mask (w : ascii) (perms : list ascii) : Z :=
  fold_right (fun p m => Z.lor (bit_of w p) m) 0 perms.

(** The bits a clause names: every permission letter of [perms] in every
    category letter of [who]. *)
Definition clause_mask (who perms : string) : Z :=
  fold_right (fun w m => Z.lor (row_mask w (PyStr.chars perms)) m) 0
    (PyStr.chars who).

(** The three bits of one category. *)
Definition category_mask (w : ascii) : Z :=
  Z.lor (Z.lor (bit_of w "r") (bit_of w "w")) (bit_of w "x").

(** [who] after [if not who: who = 'a']. *)
Definition who_or_all (who : string) : string :=
  if String.eqb who "" then "a" else who.

(** The last character of a string, if any: [s[-1]]. *)
Fixpoint last_char (s : string) : option ascii :=
  match s with
  | EmptyString => None
  | String c EmptyString => Some c
  | String _ s' => last_char s'
  end.

(** ** [file_access] *)

(** [s.split()] with no argument: the maximal runs of characters that are
    not white space, in order; no piece is empty. *)
Fixpoint split_whitespace (s : string) : list string :=
  match s with
  | EmptyString => []
  | String c s' =>
      if PyStr.is_space c then split_whitespace s'
      else
        match s' with
        | EmptyString => [String c EmptyString]
        | String c' _ =>
            if PyStr.is_space c' then String c EmptyString :: split_whitespace s'
            else
              match split_whitespace s' with
              | word :: words => String c word :: words
              | [] => [String c EmptyString]
              end
        end
  end.

Module Os.
Definition F_OK : Z := 0.
Definition R_OK : Z := 4.
Definition W_OK : Z := 2.
Definition X_OK : Z := 1.
End Os.

Definition mode_map : list (string * Z) :=
  [ ("exists", Os.F_OK); ("read", Os.R_OK); ("write", Os.W_OK);
    ("execute", Os.X_OK) ].

(** [mode_map[m]] when [m in mode_map]. *)
Fixpoint mode_map_find (d : list (string * Z)) (m : string) : option Z :=
  match d with
  | [] => None
  | (k, v) :: d' => if String.eqb m k then Some v else mode_map_find d' m
  end.

Section FileAccess.

(** [os.access(path, mode)] is the operating system's answer. *)
Variable os_access : string -> Z -> bool.

(** The loop that fills [modes]. *)
Definition collect_modes (words : list string) : result (list Z) :=
  for_each words
    (fun m modes =>
       match mode_map_find mode_map m with
       | Some code => Ok (modes ++ [code])%list
       | None => Raise (ValueError ("Invalid mode: " ++ m))
       end)
    [].

Definition file_access (path : string) (mode : string) : result bool :=
  modes ← collect_modes (split_whitespace mode);
  Ok (forallb (os_access path) modes).

End FileAccess.

(** [m in mode_map] *)
Definition known_mode (m : string) : bool :=
  match mode_map_find mode_map m with Some _ => true | None => false end.

(** [mode_map[m]] for a known word (and 0 for any other). *)
Definition mode_code (m : string) : Z :=
  match mode_map_find mode_map m with Some code => code | None => 0 end.

(** ** [path_sanitize] *)

(** The class [[a-zA-Z0-9_.-]]. *)
Definition is_safe_char (c : ascii) : bool :=
  let n := N_of_ascii c in
  ((97 <=? n) && (n <=? 122) || (65 <=? n) && (n <=? 90)
   || (48 <=? n) && (n <=? 57) || (n =? 95) || (n =? 46) || (n =? 45))%N.

Definition is_dot (c : ascii) : bool := Ascii.eqb c ".".

(** [re.sub] of the class of characters outside [[a-zA-Z0-9_.-]]: every
    such character is one match, replaced by what the replacement gives for
    it. *)
Fixpoint sub_unsafe (repl : string -> string) (s : string) : string :=
  match s with
  | EmptyString => EmptyString
  | String c s' =>
      if is_safe_char c then String c (sub_unsafe repl s')
      else repl (String c EmptyString) ++ sub_unsafe repl s'
  end.

(** [re.sub] of runs of two or more dots: the matches are the maximal
    runs of at least two dots, from left to right.  [in_run] tells that the
    characters before [s] opened such a run, already replaced. *)
Fixpoint sub_dot_runs (repl : string -> string) (in_run : bool) (s : string)
    : string :=
  match s with
  | EmptyString => EmptyString
  | String c s' =>
      if is_dot c then
        if in_run then sub_dot_runs repl true s'
        else
          match s' with
          | EmptyString => String c EmptyString
          | String c' _ =>
              if is_dot c'
              then repl (fst (PyStr.span is_dot (String c s')))
                   ++ sub_dot_runs repl true s'
              else String c (sub_dot_runs repl false s')
          end
      else String c (sub_dot_runs repl false s')
  end.

Definition reserved : list string :=
  [ "CON"; "PRN"; "AUX"; "NUL";
    "COM1"; "COM2"; "COM3"; "COM4"; "COM5"; "COM6"; "COM7"; "COM8"; "COM9";
    "LPT1"; "LPT2"; "LPT3"; "LPT4"; "LPT5"; "LPT6"; "LPT7"; "LPT8"; "LPT9" ].

(** [name.upper() in reserved] *)
Definition is_reserved (name : string) : bool :=
  existsb (String.eqb (PyStr.upper name)) reserved.

(** The string has a backslash (code 92) in it. *)
Definition has_backslash (s : string) : bool := PyStr.mem "092" s.

(** No two dots stand side by side. *)
Fixpoint no_dot_run (s : string) : bool :=
  match s with
  | EmptyString => true
  | String c s' =>
      match s' with
      | EmptyString => true
      | String c' _ => negb (is_dot c && is_dot c') && no_dot_run s'
      end
  end.

Section Sanitize.

(** What the [re] module makes of a replacement that has a backslash in
    it: it raises on a bad escape, or gives the text to put in place of each
    match, which may depend on the matched text. *)
Variable compile_template : string -> result (string -> string).

(** The replacement argument of [re.sub]: a string without a backslash is
    taken literally; any other is compiled first, match or no match. *)
Definition template (replacement : string) : result (string -> string) :=
  if has_backslash replacement then compile_template replacement
  else Ok (fun _ => replacement).

Definition path_sanitize (filename replacement : string) : result string :=
  repl ← template replacement;
  let sanitized := sub_unsafe repl filename in
  repl ← template replacement;
  let sanitized := sub_dot_runs repl false sanitized in
  let sanitized := if is_reserved sanitized then replacement else sanitized in
  Ok (String.substring 0 255 sanitized).

End Sanitize.

(** ** The stack of temporary paths *)

(** [l.pop()] on a non-empty list: the last element and the list without
    it. *)
Fixpoint list_pop {A : Type} (l : list A) : option (A * list A) :=
  match l with
  | [] => None
  | x :: l' =>
      match list_pop l' with
      | Some (y, rest) => Some (y, x :: rest)
      | None => Some (x, [])
      end
  end.

(** A value together with the proof that it is the value of the term. *)
Definition inspect {A : Type} (x : A) : {y : A | x = y} := exist _ x eq_refl.

(** [_temp_stack] is threaded through: each function takes the stack and
    returns its value with the new stack. *)
Definition file_temp_push (path : string) (_temp_stack : list string)
    : string * list string :=
  (path, (_temp_stack ++ [path])%list).

Definition file_temp_pop (_temp_stack : list string)
    : option string * list string :=
  match list_pop _temp_stack with
  | Some (path, rest) => (Some path, rest)
  | None => (None, _temp_stack)
  end.

Section TempFiles.

(** The state of the file system, the three queries [cleanup_temp_files]
    makes of it, and the two removals; a removal gives the new state and the
    exception it raised, if any. *)
Variable World : Type.
Variable world_is_file : World -> string -> bool.
Variable world_is_symlink : World -> string -> bool.
Variable world_is_dir : World -> string -> bool.
Variable unlink : string -> World -> World * option exn.
Variable rmtree : string -> World -> World * option exn.

(** The [try] block of the loop for one path. *)
Definition delete_path (path : string) (w : World) : World * option exn :=
  if world_is_file w path || world_is_symlink w path then unlink path w
  else if world_is_dir w path then rmtree path w
  else (w, None).

(** One round of the loop: the new state, and the standard error output
    with the failure appended when the removal raised. *)
Definition cleanup_step (path : string) (state : World * list (string * exn))
    : World * list (string * exn) :=
  let (w, stderr) := state in
  let (w', raised) := delete_path path w in
  (w', match raised with
       | Some e => (stderr ++ [(path, e)])%list
       | None => stderr
       end).

(** [while _temp_stack: path = _temp_stack.pop(); ...] *)
Equations cleanup_loop (_temp_stack : list string)
    (state : World * list (string * exn))
    : list string * (World * list (string * exn))
    by wf (List.length _temp_stack) lt :=
  cleanup_loop _temp_stack state with inspect (list_pop _temp_stack) => {
    | exist _ None _ => (_temp_stack, state);
    | exist _ (Some (path, rest)) Hpop => cleanup_loop rest (cleanup_step path state) }.
Next Obligation.
  revert path rest Hpop. clear.
  induction _temp_stack as [|a l IH]; intros path rest; simpl; [discriminate|].
  destruct (list_pop l) as [[y r]|] eqn:Hp.
  - intros [= <- <-]. simpl. specialize (IH y r eq_refl). lia.
  - intros [= <- <-]. simpl. lia.
Qed.

(** The stack left, the file system left, and what was printed. *)
Definition cleanup_temp_files (_temp_stack : list string) (w : World)
    : list string * (World * list (string * exn)) :=
  cleanup_loop _temp_stack (w, []).

End TempFiles.

(** ** Notions used to state the properties of [dir_ls] *)

(** The path passes the test on hidden names. *)
Definition visible (all : bool) (p : Path) : bool :=
  negb (negb all && PyStr.startswith (name p) ".").

(** The verdict of one pattern block when its matcher answers [found]:
    no pattern lets everything pass. *)
Definition pattern_passes (pattern : option string) (invert : bool)
    (found : bool) : bool :=
  match truthy pattern with
  | Some _ => xorb found invert
  | None => true
  end.

(** ** [file_info], [file_size] and [dir_info] *)

(** [stat.S_IMODE(mode)]: the permission bits and the three special bits
    (mode & 0o7777). *)
Definition S_IMODE (mode : Z) : Z := Z.land mode 4095.

Section FileInfo.

(** Time stamps are floating-point numbers; nothing is computed with
    them. *)
Variable Time : Type.

(** The fields of [os.stat_result] that are read. *)
Record stat_result : Type := mkStat {
  st_mode : Z;
  st_ino : Z;
  st_dev : Z;
  st_nlink : Z;
  st_uid : Z;
  st_gid : Z;
  st_size : Z;
  st_atime : Time;
  st_mtime : Time;
  st_ctime : Time;
  st_birthtime : option Time
}.

(** The dictionary that [file_info] and [dir_info] build, key by key. *)
Record info : Type := mkInfo {
  info_path : string;
  info_type : string;
  info_size : Z;
  info_permissions : Z;
  info_modification_time : Time;
  info_user : option string;
  info_group : option string;
  info_device_id : Z;
  info_hard_links : Z;
  info_inode : Z;
  info_access_time : Time;
  info_change_time : Time;
  info_birth_time : option Time
}.

(** [os.name == 'nt'] *)
Variable nt : bool.

(** [path.stat()], [path.lstat()], and the names that [grp.getgrgid] and
    [pwd.getpwuid] find, each of which may raise. *)
Variable path_stat : Path -> result stat_result.
Variable path_lstat : Path -> result stat_result.
Variable getgrgid_name : Z -> result string.
Variable getpwuid_name : Z -> result string.

(** What follows the call of [stat] or [lstat] inside the [try] block. *)
Definition build_info (p : Path) (stat_info : stat_result) : result info :=
  names ← (if negb nt then
             user ← getgrgid_name (st_gid stat_info);
             group ← getpwuid_name (st_uid stat_info);
             Ok (Some user, Some group)
           else Ok (None, None));
  Ok {| info_path := str p;
        info_type := if is_dir p then "directory"
                     else if is_file p then "file" else "symlink";
        info_size := st_size stat_info;
        info_permissions := S_IMODE (st_mode stat_info);
        info_modification_time := st_mtime stat_info;
        info_user := fst names;
        info_group := snd names;
        info_device_id := st_dev stat_info;
        info_hard_links := st_nlink stat_info;
        info_inode := st_ino stat_info;
        info_access_time := st_atime stat_info;
        info_change_time := st_ctime stat_info;
        info_birth_time := st_birthtime stat_info |}.

Definition file_info (p : Path) (fail follow : bool) : result (option info) :=
  match (stat_info ← (if follow then path_stat p else path_lstat p);
         build_info p stat_info) with
  | Ok i => Ok (Some i)
  | Raise e => if fail then Raise e else Ok None
  end.

Definition file_size (p : Path) (fail : bool) : result (option Z) :=
  i ← file_info p fail true;
  Ok match i with
     | Some d => Some (info_size d)
     | None => None
     end.

Section DirInfo.

Variable path_match : string -> string -> result bool.
Variable re_search : string -> string -> result bool.



End DirInfo.

End FileInfo.

Arguments mkStat {Time}.
Arguments st_mode {Time}.
Arguments st_uid {Time}.
Arguments st_gid {Time}.
Arguments st_size {Time}.
Arguments info_path {Time}.
Arguments info_size {Time}.
Arguments info_permissions {Time}.

(** The computation returns. *)
Definition returns {A : Type} (r : result A) : bool :=
  match r with Ok _ => true | Raise _ => false end.

(** ** Further notions used to state the properties *)

(** The text begins with a permission letter. *)
Definition starts_with_perm (s : string) : bool :=
  match s with
  | String c _ => PyStr.mem c "rwx"
  | EmptyString => false
  end.

(** The text begins with a dot. *)
Definition starts_with_dot (s : string) : bool :=
  match s with
  | String c _ => is_dot c
  | EmptyString => false
  end.

(** What [path_sanitize] returns for the empty replacement. *)
Definition sanitized_default (filename : string) : string :=
  let clean := sub_dot_runs (fun _ => "") false (sub_unsafe (fun _ => "") filename) in
  String.substring 0 255 (if is_reserved clean then "" else clean).

(** Popping as many times as there are paths. *)
Fixpoint pop_all (n : nat) (stack : list string) : list (option string) * list string :=
  match n with
  | O => ([], stack)
  | S n' =>
      let (popped, stack1) := file_temp_pop stack in
      let (more, stack2) := pop_all n' stack1 in
      (popped :: more, stack2)
  end.

(** * Properties *)

(** ** The error monad and the loops *)

Lemma for_each_app {A S : Type} (xs ys : list A) (body : A -> S -> result S)
    (s : S) :
  for_each (xs ++ ys) body s = s' ← for_each xs body s; for_each ys body s'.
Proof.
  revert s. induction xs as [|x xs IH]; intros s; simpl; [reflexivity|].
  destruct (body x s) as [s1|e]; simpl; [apply IH | reflexivity].
Qed.

(** A property of the state that every step keeps is kept by the loop. *)
Lemma for_each_invariant {A S : Type} (P : S -> Prop) (xs : list A)
    (body : A -> S -> result S) :
  (forall x s s', In x xs -> P s -> body x s = Ok s' -> P s') ->
  forall s r, P s -> for_each xs body s = Ok r -> P r.
Proof.
  induction xs as [|x xs IH]; intros Hstep s r Hs Hrun; simpl in Hrun.
  - injection Hrun as <-. exact Hs.
  - destruct (body x s) as [s1|e] eqn:Hb; simpl in Hrun; [|discriminate].
    apply (IH (fun y t t' Hy => Hstep y t t' (or_intror Hy)) s1 r); [|exact Hrun].
    apply (Hstep x s s1); [left; reflexivity | exact Hs | exact Hb].
Qed.

(** A loop whose steps never raise does not raise. *)
Lemma for_each_total {A S : Type} (xs : list A) (body : A -> S -> result S) :
  (forall x s, In x xs -> exists s', body x s = Ok s') ->
  forall s, exists r, for_each xs body s = Ok r.
Proof.
  induction xs as [|x xs IH]; intros Hstep s; simpl.
  - exists s. reflexivity.
  - destruct (Hstep x s (or_introl eq_refl)) as [s1 ->]. simpl.
    apply IH. intros y t Hy. apply Hstep. right. exact Hy.
Qed.

(** ** Strings *)

Lemma mem_In (c : ascii) (set : string) :
  PyStr.mem c set = true <-> In c (PyStr.chars set).
Proof.
  unfold PyStr.mem. rewrite existsb_exists. split.
  - intros [x [Hx Heq]]. apply Ascii.eqb_eq in Heq. subst. exact Hx.
  - intros H. exists c. split; [exact H | apply Ascii.eqb_refl].
Qed.

Lemma chars_app (s t : string) :
  PyStr.chars (s ++ t) = (PyStr.chars s ++ PyStr.chars t)%list.
Proof. induction s as [|c s IH]; simpl; [reflexivity | f_equal; exact IH]. Qed.

Lemma span_spec (f : ascii -> bool) (s : string) :
  s = fst (PyStr.span f s) ++ snd (PyStr.span f s)
  /\ Forall (fun c => f c = true) (PyStr.chars (fst (PyStr.span f s)))
  /\ match snd (PyStr.span f s) with
     | String c _ => f c = false
     | EmptyString => True
     end.
Proof.
  induction s as [|c s IH]; simpl.
  - repeat split. constructor.
  - destruct (f c) eqn:Hc.
    + destruct (PyStr.span f s) as [a b]. simpl in *.
      destruct IH as (H1 & H2 & H3). repeat split.
      * f_equal. exact H1.
      * constructor; assumption.
      * exact H3.
    + simpl. repeat split; [constructor | exact Hc].
Qed.

(** The run stops at the first character outside the class. *)
Lemma span_app (f : ascii -> bool) (pre : string) (c : ascii) (rest : string) :
  Forall (fun x => f x = true) (PyStr.chars pre) -> f c = false ->
  PyStr.span f (pre ++ String c rest) = (pre, String c rest).
Proof.
  intros Hpre Hc. induction pre as [|x pre IH]; simpl.
  - rewrite Hc. reflexivity.
  - inversion Hpre as [|? ? Hx Hpre']; subst. rewrite Hx, (IH Hpre'). reflexivity.
Qed.

Lemma span_all (f : ascii -> bool) (s : string) :
  Forall (fun x => f x = true) (PyStr.chars s) ->
  PyStr.span f s = (s, EmptyString).
Proof.
  intros Hs. induction s as [|x s IH]; simpl; [reflexivity|].
  inversion Hs as [|? ? Hx Hs']; subst. rewrite Hx, (IH Hs'). reflexivity.
Qed.

Lemma rstrip_no_space (s : string) :
  Forall (fun c => PyStr.is_space c = false) (PyStr.chars s) ->
  PyStr.rstrip s = s.
Proof.
  induction s as [|c s IH]; intros Hs; simpl; [reflexivity|].
  inversion Hs as [|? ? Hc Hs']; subst. rewrite (IH Hs'), Hc.
  destruct s; reflexivity.
Qed.

Lemma strip_no_space (s : string) :
  Forall (fun c => PyStr.is_space c = false) (PyStr.chars s) ->
  PyStr.strip s = s.
Proof.
  intros Hs. unfold PyStr.strip.
  assert (Hl : PyStr.lstrip s = s).
  { destruct s as [|c s]; simpl; [reflexivity|].
    inversion Hs as [|? ? Hc _]; subst. rewrite Hc. reflexivity. }
  rewrite Hl. apply rstrip_no_space. exact Hs.
Qed.

Lemma split_nonempty (sep : ascii) (s : string) : PyStr.split sep s <> [].
Proof.
  destruct s as [|c s]; simpl; [discriminate|].
  destruct (Ascii.eqb c sep); [discriminate|].
  destruct (PyStr.split sep s); discriminate.
Qed.

(** Splitting a text that has a separator between [s1] and [s2] gives the
    pieces of [s1] followed by the pieces of [s2]. *)
Lemma split_app (sep : ascii) (s1 s2 : string) :
  PyStr.split sep (s1 ++ String sep s2)
  = (PyStr.split sep s1 ++ PyStr.split sep s2)%list.
Proof.
  induction s1 as [|c s1 IH]; simpl.
  - rewrite Ascii.eqb_refl. reflexivity.
  - destruct (Ascii.eqb c sep); [rewrite IH; reflexivity|].
    rewrite IH. pose proof (split_nonempty sep s1) as Hne.
    destruct (PyStr.split sep s1) as [|piece pieces]; [contradiction|].
    reflexivity.
Qed.

(** ** The permission bits *)

Lemma nine_bits_range (m : Z) : nine_bits m <-> 0 <= m <= 511.
Proof.
  unfold nine_bits. change 511 with (Z.ones 9) at 1.
  rewrite Z.land_ones by lia. change (2 ^ 9) with 512. split.
  - intros H. pose proof (Z.mod_pos_bound m 512 ltac:(lia)). lia.
  - intros H. apply Z.mod_small. lia.
Qed.

Lemma nine_bits_lor (m b : Z) : nine_bits m -> nine_bits b -> nine_bits (Z.lor m b).
Proof.
  unfold nine_bits. intros Hm Hb.
  rewrite Z.land_lor_distr_l, Hm, Hb. reflexivity.
Qed.

Lemma nine_bits_clear (m b : Z) : nine_bits m -> nine_bits (Z.land m (Z.lnot b)).
Proof.
  unfold nine_bits. intros Hm.
  rewrite <- Z.land_assoc, (Z.land_comm (Z.lnot b)), Z.land_assoc, Hm.
  reflexivity.
Qed.

Lemma dict_find_In {V : Type} (d : dict V) (k : ascii) (v : V) :
  dict_find d k = Some v -> In v (map snd d).
Proof.
  induction d as [|[k' v'] d IH]; simpl; [discriminate|].
  destruct (Ascii.eqb k k'); [intros [= ->]; left; reflexivity|].
  intros H. right. apply IH. exact H.
Qed.

Lemma dict_get_In {V : Type} (d : dict V) (k : ascii) (v : V) :
  dict_get d k = Ok v -> In v (map snd d).
Proof.
  unfold dict_get. destruct (dict_find d k) eqn:H; [|discriminate].
  intros [= ->]. apply (dict_find_In d k). exact H.
Qed.

Lemma perm_bits_nine (bits_w : dict Z) (b : Z) :
  In bits_w (map snd perm_bits) -> In b (map snd bits_w) -> nine_bits b.
Proof.
  simpl. intros [<- | [<- | [<- | [<- | []]]]]; simpl;
    intros [<- | [<- | [<- | []]]]; reflexivity.
Qed.

Lemma apply_perm_nine_bits (action w p : ascii) (perm m : Z) :
  nine_bits perm -> apply_perm action w p perm = Ok m -> nine_bits m.
Proof.
  intros Hperm. unfold apply_perm.
  destruct (dict_get perm_bits w) as [bits_w|e] eqn:Hw; simpl; [|discriminate].
  apply dict_get_In in Hw.
  assert (Hb : forall k b, dict_get bits_w k = Ok b -> nine_bits b).
  { intros k b Hk. apply (perm_bits_nine bits_w); [exact Hw|].
    apply (dict_get_In bits_w k). exact Hk. }
  destruct (dict_has bits_w p); [|intros [= <-]; exact Hperm].
  destruct (Ascii.eqb action "+").
  { destruct (dict_get bits_w p) as [b|e] eqn:Hp; simpl; [|discriminate].
    intros [= <-]. apply nine_bits_lor; [exact Hperm | apply (Hb p); exact Hp]. }
  destruct (Ascii.eqb action "-").
  { destruct (dict_get bits_w p) as [b|e] eqn:Hp; simpl; [|discriminate].
    intros [= <-]. apply nine_bits_clear. exact Hperm. }
  destruct (Ascii.eqb action "="); [|intros [= <-]; exact Hperm].
  match goal with
  | |- mbind _ ?c = _ -> _ => destruct c as [perm1|e] eqn:Hclear
  end; simpl; [|discriminate].
  assert (H1 : nine_bits perm1).
  { destruct (negb (Ascii.eqb w "a")); [|injection Hclear as <-; exact Hperm].
    revert Hclear. apply for_each_invariant; [|exact Hperm].
    intros key s s' _ Hs.
    destruct (dict_get bits_w key) as [b|e]; simpl; [|discriminate].
    intros [= <-]. apply nine_bits_clear. exact Hs. }
  destruct (dict_get bits_w p) as [b|e] eqn:Hp; simpl; [|discriminate].
  intros [= <-]. apply nine_bits_lor; [exact H1 | apply (Hb p); exact Hp].
Qed.

Lemma apply_operations_nine_bits (operations : list string) (perm m : Z) :
  nine_bits perm -> apply_operations operations perm = Ok m -> nine_bits m.
Proof.
  unfold apply_operations. intros Hperm. revert perm m Hperm.
  apply for_each_invariant.
  intros op s s' _ Hs. unfold apply_operation.
  destruct (re_match_symbolic (PyStr.strip op)) as [[[who action] perms]|];
    [|discriminate].
  unfold apply_clause. revert s s' Hs. apply for_each_invariant.
  intros w s s' _ Hs. revert s s' Hs. apply for_each_invariant.
  intros p s s' _ Hs. apply apply_perm_nine_bits. exact Hs.
Qed.

(** ** Which expressions compile *)

Lemma re_match_symbolic_who (t who : string) (action : ascii) (perms : string) :
  re_match_symbolic t = Some (who, action, perms) ->
  Forall (fun c => In c (PyStr.chars "ugoa")) (PyStr.chars who)
  /\ In action (PyStr.chars "+=-")
  /\ Forall (fun c => In c (PyStr.chars "rwx")) (PyStr.chars perms)
  /\ exists rest, t = who ++ String action (perms ++ rest).
Proof.
  unfold re_match_symbolic.
  pose proof (span_spec (fun c => PyStr.mem c "ugoa") t) as (Ht & Hwho & _).
  destruct (PyStr.span (fun c => PyStr.mem c "ugoa") t) as [who0 rest0].
  simpl in Ht, Hwho. destruct rest0 as [|a rest']; [discriminate|].
  destruct (PyStr.mem a "+=-") eqn:Ha; [|discriminate].
  pose proof (span_spec (fun c => PyStr.mem c "rwx") rest') as (Hr & Hperms & _).
  intros [= <- <- <-]. split; [|split; [|split]].
  - eapply Forall_impl; [exact Hwho|]. intros c Hc. apply mem_In. exact Hc.
  - apply mem_In. exact Ha.
  - eapply Forall_impl; [exact Hperms|]. intros c Hc. apply mem_In. exact Hc.
  - eexists. rewrite <- Hr. exact Ht.
Qed.

Lemma sign_not_who (c : ascii) :
  In c (PyStr.chars "+=-") -> PyStr.mem c "ugoa" = false.
Proof. simpl. intros [<- | [<- | [<- | []]]]; reflexivity. Qed.

Lemma re_match_symbolic_prefix (who : string) (action : ascii) (rest : string) :
  Forall (fun c => In c (PyStr.chars "ugoa")) (PyStr.chars who) ->
  In action (PyStr.chars "+=-") ->
  re_match_symbolic (who ++ String action rest)
  = Some (who, action, fst (PyStr.span (fun c => PyStr.mem c "rwx") rest)).
Proof.
  intros Hwho Ha. unfold re_match_symbolic.
  rewrite span_app.
  - apply mem_In in Ha. rewrite Ha. reflexivity.
  - eapply Forall_impl; [exact Hwho|]. intros c Hc. apply mem_In. exact Hc.
  - apply sign_not_who. exact Ha.
Qed.

Lemma accepts_spec (op : string) :
  accepts op = true <-> starts_with_who_action (PyStr.strip op).
Proof.
  unfold accepts. split.
  - destruct (re_match_symbolic (PyStr.strip op)) as [[[who action] perms]|] eqn:Hm;
      [|discriminate].
    intros _. apply re_match_symbolic_who in Hm as (Hwho & Ha & _ & rest & Ht).
    exists who, action, (perms ++ rest). auto.
  - intros (who & action & rest & Ht & Hwho & Ha).
    rewrite Ht, re_match_symbolic_prefix by assumption. reflexivity.
Qed.

Lemma apply_perm_total (action w p : ascii) (perm : Z) :
  In w (PyStr.chars "ugoa") -> exists m, apply_perm action w p perm = Ok m.
Proof.
  simpl. unfold apply_perm.
  intros [<- | [<- | [<- | [<- | []]]]]; unfold dict_has, dict_get; simpl;
    destruct (Ascii.eqb p "r"), (Ascii.eqb p "w"), (Ascii.eqb p "x"),
      (Ascii.eqb action "+"), (Ascii.eqb action "-"), (Ascii.eqb action "=");
    simpl; eexists; reflexivity.
Qed.

Lemma apply_clause_total (who : string) (action : ascii) (perms : string)
    (perm : Z) :
  Forall (fun c => In c (PyStr.chars "ugoa")) (PyStr.chars who) ->
  exists m, apply_clause who action perms perm = Ok m.
Proof.
  intros Hwho. unfold apply_clause. apply for_each_total.
  intros w s Hw. apply for_each_total. intros p s' _.
  apply apply_perm_total. rewrite List.Forall_forall in Hwho. apply Hwho. exact Hw.
Qed.

Lemma apply_operation_accepts (op : string) (perm : Z) :
  accepts op = true -> exists m, apply_operation op perm = Ok m.
Proof.
  unfold accepts, apply_operation.
  destruct (re_match_symbolic (PyStr.strip op)) as [[[who action] perms]|] eqn:Hm;
    [|discriminate].
  intros _. apply re_match_symbolic_who in Hm as (Hwho & _).
  apply apply_clause_total. destruct (String.eqb who ""); [|exact Hwho].
  constructor; [simpl; tauto | constructor].
Qed.

Lemma apply_operation_rejects (op : string) (perm : Z) :
  accepts op = false ->
  apply_operation op perm = Raise (ValueError ("Invalid symbolic permission: " ++ op)).
Proof.
  unfold accepts, apply_operation.
  destruct (re_match_symbolic (PyStr.strip op)); [discriminate | reflexivity].
Qed.

Lemma apply_operations_cases (operations : list string) (perm : Z) :
  (Forall (fun op => accepts op = true) operations
   /\ exists m, apply_operations operations perm = Ok m)
  \/ (Exists (fun op => accepts op = false) operations
      /\ exists msg, apply_operations operations perm = Raise (ValueError msg)).
Proof.
  unfold apply_operations. revert perm.
  induction operations as [|op ops IH]; intros perm; simpl.
  - left. split; [constructor | eexists; reflexivity].
  - destruct (accepts op) eqn:Hop.
    + destruct (apply_operation_accepts op perm Hop) as [m ->]. simpl.
      destruct (IH m) as [[Hall Hm] | [Hex Hm]].
      * left. split; [constructor; assumption | exact Hm].
      * right. split; [apply Exists_cons_tl; exact Hex | exact Hm].
    + rewrite (apply_operation_rejects op perm Hop). simpl.
      right. split; [apply Exists_cons_hd; exact Hop | eexists; reflexivity].
Qed.

(** ** Assignment under the all alias *)

Lemma apply_perm_all (action p : ascii) (perm : Z) :
  action = "+"%char \/ action = "="%char ->
  apply_perm action "a" p perm = Ok (Z.lor perm (all_bit p)).
Proof.
  intros [-> | ->]; unfold apply_perm, all_bit, dict_has, dict_get; simpl;
    destruct (Ascii.eqb p "r"), (Ascii.eqb p "w"), (Ascii.eqb p "x"); simpl;
    rewrite ?Z.lor_0_r; reflexivity.
Qed.

Lemma apply_perms_all (action : ascii) (perms : list ascii) (perm : Z) :
  action = "+"%char \/ action = "="%char ->
  for_each perms (apply_perm action "a") perm
  = Ok (Z.lor perm (fold_right (fun p m => Z.lor (all_bit p) m) 0 perms)).
Proof.
  intros Ha. revert perm. induction perms as [|p ps IH]; intros perm; simpl.
  - rewrite Z.lor_0_r. reflexivity.
  - rewrite (apply_perm_all action p perm Ha). simpl.
    rewrite IH, Z.lor_assoc. reflexivity.
Qed.

Lemma apply_clause_all (who : string) (action : ascii) (perms : string)
    (perm : Z) :
  action = "+"%char \/ action = "="%char ->
  who <> "" -> Forall (fun c => c = "a"%char) (PyStr.chars who) ->
  apply_clause who action perms perm = Ok (Z.lor perm (requested_all_bits perms)).
Proof.
  intros Ha Hne Hwho. unfold apply_clause, requested_all_bits.
  set (M := fold_right (fun p m => Z.lor (all_bit p) m) 0 (PyStr.chars perms)).
  assert (Hidem : forall l, Forall (fun c => c = "a"%char) l ->
    for_each l (fun w acc => for_each (PyStr.chars perms) (apply_perm action w) acc)
      (Z.lor perm M) = Ok (Z.lor perm M)).
  { induction l as [|w l IH]; intros Hl; simpl; [reflexivity|].
    inversion Hl as [|? ? Hw Hl']; subst.
    rewrite (apply_perms_all action _ _ Ha). fold M. simpl.
    rewrite <- Z.lor_assoc, Z.lor_diag. apply IH. exact Hl'. }
  destruct who as [|w who]; [contradiction|]. simpl in *.
  inversion Hwho as [|? ? Hw Hwho']; subst.
  rewrite (apply_perms_all action _ _ Ha). fold M. simpl.
  apply Hidem. exact Hwho'.
Qed.

Lemma clause_chars_no_space (who : string) (action : ascii) (perms : string) :
  Forall (fun c => In c (PyStr.chars "ugoa")) (PyStr.chars who) ->
  In action (PyStr.chars "+=-") ->
  Forall (fun c => In c (PyStr.chars "rwx")) (PyStr.chars perms) ->
  Forall (fun c => PyStr.is_space c = false)
    (PyStr.chars (who ++ String action perms)).
Proof.
  intros Hwho Ha Hperms. rewrite chars_app. apply Forall_app. split.
  - eapply Forall_impl; [exact Hwho|]. simpl.
    intros c [<- | [<- | [<- | [<- | []]]]]; reflexivity.
  - simpl. constructor.
    + simpl in Ha. destruct Ha as [<- | [<- | [<- | []]]]; reflexivity.
    + eapply Forall_impl; [exact Hperms|]. simpl.
      intros c [<- | [<- | [<- | []]]]; reflexivity.
Qed.

(** A clause written exactly as categories, sign, permissions is read
    back as those three parts. *)
Lemma apply_operation_clause (who : string) (action : ascii) (perms : string)
    (perm : Z) :
  Forall (fun c => In c (PyStr.chars "ugoa")) (PyStr.chars who) ->
  In action (PyStr.chars "+=-") ->
  Forall (fun c => In c (PyStr.chars "rwx")) (PyStr.chars perms) ->
  apply_operation (who ++ String action perms) perm
  = apply_clause (if String.eqb who "" then "a" else who) action perms perm.
Proof.
  intros Hwho Ha Hperms. unfold apply_operation.
  rewrite strip_no_space by (apply clause_chars_no_space; assumption).
  rewrite re_match_symbolic_prefix by assumption.
  rewrite span_all; [reflexivity|].
  eapply Forall_impl; [exact Hperms|]. intros c Hc. apply mem_In. exact Hc.
Qed.

(** ** The claims about [symbolic_to_octal] *)

(** C1. An assignment to one category is meant to clear the category once
    and then set every requested permission.  The source clears the category
    again before each requested permission, so only the last one is left: on
    "u=rw" the result is owner-write alone (0o200), and the owner-read bit is
    not set. *)
Theorem C1_assign_keeps_last_permission_only :
  symbolic_to_octal "u=rw" = Ok 128
  /\ Z.land 128 Stat.S_IRUSR = 0
  /\ Z.land 128 Stat.S_IWUSR = Stat.S_IWUSR.
Proof. repeat split. Qed.

(** C2, as the specification states it, fails: after "u+w" the clause "a=r"
    does not leave exactly the three read bits (0o444 = 292). *)
Lemma C2_all_assign_not_cleared : symbolic_to_octal "u+w,a=r" <> Ok 292.
Proof. discriminate. Qed.

(** C2, amended.  A clause with the sign "=" whose categories are absent or
    only the letter a clears nothing: it sets the requested permission bits
    in all three categories on top of the bits already there, exactly as the
    same clause with "+" does. *)
Theorem C2_all_assign_sets_without_clearing
    (who perms : string) (perm : Z) :
  Forall (fun c => c = "a"%char) (PyStr.chars who) ->
  Forall (fun c => In c (PyStr.chars "rwx")) (PyStr.chars perms) ->
  apply_operation (who ++ String "=" perms) perm
  = Ok (Z.lor perm (requested_all_bits perms))
  /\ apply_operation (who ++ String "=" perms) perm
     = apply_operation (who ++ String "+" perms) perm.
Proof.
  intros Hwho Hperms.
  assert (Hugoa : Forall (fun c => In c (PyStr.chars "ugoa")) (PyStr.chars who)).
  { eapply Forall_impl; [exact Hwho|]. intros c ->. simpl. tauto. }
  assert (Hrun : forall action, action = "+"%char \/ action = "="%char ->
    apply_operation (who ++ String action perms) perm
    = Ok (Z.lor perm (requested_all_bits perms))).
  { intros action Ha. rewrite apply_operation_clause; try assumption.
    - apply apply_clause_all; [exact Ha | |].
      + destruct who; simpl; discriminate.
      + destruct who as [|c who]; simpl; [repeat constructor | exact Hwho].
    - destruct Ha as [-> | ->]; simpl; tauto. }
  split.
  - apply Hrun. right. reflexivity.
  - rewrite !Hrun by tauto. reflexivity.
Qed.

Lemma C2_all_assign_sets_without_clearing_witness :
  apply_operation "a=r" 128 = Ok 420
  /\ apply_operation "a=r" 128 = apply_operation "a+r" 128.
Proof.
  apply (C2_all_assign_sets_without_clearing "a" "r" 128).
  - repeat constructor.
  - repeat constructor.
Defined.

(** [symbolic_to_octal] raises ValueError exactly when some clause, once
    surrounding white space is removed, does not begin with category letters
    (possibly none) followed by a sign; in every other case it returns. *)
Lemma symbolic_to_octal_fails_iff (s : string) :
  ((exists msg, symbolic_to_octal s = Raise (ValueError msg))
   <-> Exists (fun op => ~ starts_with_who_action (PyStr.strip op))
         (PyStr.split "," s))
  /\ ((exists m, symbolic_to_octal s = Ok m)
      <-> Forall (fun op => starts_with_who_action (PyStr.strip op))
            (PyStr.split "," s)).
Proof.
  unfold symbolic_to_octal.
  assert (Hgood : forall ops,
    Forall (fun op => accepts op = true) ops
    <-> Forall (fun op => starts_with_who_action (PyStr.strip op)) ops).
  { intros ops. split; intros H; (eapply Forall_impl; [exact H|]);
      intros op Hop; apply accepts_spec; exact Hop. }
  assert (Hbad : forall ops,
    Exists (fun op => accepts op = false) ops
    <-> Exists (fun op => ~ starts_with_who_action (PyStr.strip op)) ops).
  { intros ops. split; intros H; (eapply Exists_impl; [exact H|]);
      intros op Hop.
    - intros Hs. apply accepts_spec in Hs. congruence.
    - destruct (accepts op) eqn:Ha; [|reflexivity].
      exfalso. apply Hop. apply accepts_spec. exact Ha. }
  assert (Hexcl : forall ops,
    Forall (fun op => accepts op = true) ops ->
    Exists (fun op => accepts op = false) ops -> False).
  { intros ops Hall Hex. rewrite List.Forall_forall in Hall.
    rewrite List.Exists_exists in Hex. destruct Hex as (op & Hin & Hop).
    rewrite (Hall op Hin) in Hop. discriminate. }
  split.
  - rewrite <- Hbad.
    destruct (apply_operations_cases (PyStr.split "," s) 0)
      as [[Hall [m Hm]] | [Hex [msg Hmsg]]]; split.
    + intros [msg Hmsg]. rewrite Hm in Hmsg. discriminate.
    + intros Hex. destruct (Hexcl _ Hall Hex).
    + intros _. exact Hex.
    + intros _. exists msg. exact Hmsg.
  - rewrite <- Hgood.
    destruct (apply_operations_cases (PyStr.split "," s) 0)
      as [[Hall [m Hm]] | [Hex [msg Hmsg]]]; split.
    + intros _. exact Hall.
    + intros _. exists m. exact Hm.
    + intros [m Hm]. rewrite Hmsg in Hm. discriminate.
    + intros Hall. destruct (Hexcl _ Hall Hex).
Qed.

Lemma string_app_assoc (a b c : string) : (a ++ b) ++ c = a ++ (b ++ c).
Proof. induction a as [|x a IH]; simpl; [reflexivity | rewrite IH; reflexivity]. Qed.

Lemma rstrip_app_no_space (s t : string) :
  Forall (fun c => PyStr.is_space c = false) (PyStr.chars s) ->
  PyStr.rstrip (s ++ t) = s ++ PyStr.rstrip t.
Proof.
  induction s as [|c s IH]; intros Hs; simpl; [reflexivity|].
  inversion Hs as [|? ? Hc Hs']; subst. rewrite (IH Hs'), Hc.
  destruct (s ++ PyStr.rstrip t) eqn:Hst; [|reflexivity].
  reflexivity.
Qed.

Lemma rstrip_keeps_head (t : string) :
  starts_with_perm t = false -> starts_with_perm (PyStr.rstrip t) = false.
Proof.
  destruct t as [|c t]; simpl; [reflexivity|]. intros Hc.
  destruct (PyStr.rstrip t); [destruct (PyStr.is_space c)|]; simpl;
    try reflexivity; exact Hc.
Qed.

Lemma span_perms_then_other (perms rest : string) :
  Forall (fun c => In c (PyStr.chars "rwx")) (PyStr.chars perms) ->
  starts_with_perm rest = false ->
  fst (PyStr.span (fun c => PyStr.mem c "rwx") (perms ++ rest)) = perms.
Proof.
  intros Hperms Hrest.
  assert (Hmem : Forall (fun c => PyStr.mem c "rwx" = true) (PyStr.chars perms)).
  { eapply Forall_impl; [exact Hperms|]. intros c Hc. apply mem_In. exact Hc. }
  destruct rest as [|c rest].
  - assert (Hempty : perms ++ "" = perms).
    { clear. induction perms as [|x perms IH]; simpl;
        [reflexivity | rewrite IH; reflexivity]. }
    rewrite Hempty, span_all by exact Hmem. reflexivity.
  - rewrite span_app by assumption. reflexivity.
Qed.

(** Text after the permission letters of a clause does not count. *)
Lemma apply_operation_trailing_text (who : string) (action : ascii)
    (perms rest : string) (perm : Z) :
  Forall (fun c => In c (PyStr.chars "ugoa")) (PyStr.chars who) ->
  In action (PyStr.chars "+=-") ->
  Forall (fun c => In c (PyStr.chars "rwx")) (PyStr.chars perms) ->
  starts_with_perm rest = false ->
  apply_operation (who ++ String action (perms ++ rest)) perm
  = apply_operation (who ++ String action perms) perm.
Proof.
  intros Hwho Ha Hperms Hrest.
  rewrite (apply_operation_clause who action perms perm Hwho Ha Hperms).
  unfold apply_operation.
  assert (Hclean : Forall (fun c => PyStr.is_space c = false)
                     (PyStr.chars (who ++ String action perms)))
    by (apply clause_chars_no_space; assumption).
  assert (Hstrip : PyStr.strip (who ++ String action (perms ++ rest))
                   = who ++ String action (perms ++ PyStr.rstrip rest)).
  { unfold PyStr.strip.
    assert (Hl : PyStr.lstrip (who ++ String action (perms ++ rest))
                 = who ++ String action (perms ++ rest)).
    { destruct who as [|c who]; simpl in *.
      - inversion Hclean as [|? ? Hc _]; subst. rewrite Hc. reflexivity.
      - inversion Hclean as [|? ? Hc _]; subst. rewrite Hc. reflexivity. }
    rewrite Hl.
    change (who ++ String action (perms ++ rest))
      with (who ++ (String action perms ++ rest)).
    rewrite <- string_app_assoc, (rstrip_app_no_space _ rest Hclean).
    rewrite string_app_assoc. reflexivity. }
  rewrite Hstrip, (re_match_symbolic_prefix who action _ Hwho Ha).
  rewrite (span_perms_then_other perms (PyStr.rstrip rest) Hperms
             (rstrip_keeps_head rest Hrest)).
  reflexivity.
Qed.

(** C3.  A clause with text after its permission letters, such as "u+rq",
    is outside the grammar and is meant to fail with ValueError.  The source
    matches the pattern at the start of the clause only: the permission
    letters are the longest run of r, w and x after the sign, and whatever
    follows them is ignored, so the clause compiles as if the text were not
    there.  "u+rq" gives owner-read and "u+rqw" gives owner-read too.  The
    expressions that do fail are those with a clause that does not begin with
    category letters and a sign, the empty expression and "z+r" among them. *)
Theorem C3_trailing_text_ignored :
  (forall (who : string) (action : ascii) (perms rest : string) (perm : Z),
     Forall (fun c => In c (PyStr.chars "ugoa")) (PyStr.chars who) ->
     In action (PyStr.chars "+=-") ->
     Forall (fun c => In c (PyStr.chars "rwx")) (PyStr.chars perms) ->
     starts_with_perm rest = false ->
     apply_operation (who ++ String action (perms ++ rest)) perm
     = apply_operation (who ++ String action perms) perm
     /\ exists m, apply_operation (who ++ String action (perms ++ rest)) perm = Ok m)
  /\ (forall s : string,
        (exists msg, symbolic_to_octal s = Raise (ValueError msg))
        <-> Exists (fun op => ~ starts_with_who_action (PyStr.strip op))
              (PyStr.split "," s))
  /\ spec_clause_grammar "u+rq" = false
  /\ symbolic_to_octal "u+rq" = Ok 256
  /\ symbolic_to_octal "u+rqw" = Ok 256
  /\ symbolic_to_octal "u+r-w" = Ok 256
  /\ is_value_error (symbolic_to_octal "") = true
  /\ is_value_error (symbolic_to_octal "z+r") = true.
Proof.
  split; [|split; [|repeat split]].
  - intros who action perms rest perm Hwho Ha Hperms Hrest. split.
    + apply apply_operation_trailing_text; assumption.
    + rewrite apply_operation_trailing_text by assumption.
      rewrite apply_operation_clause by assumption.
      apply apply_clause_total.
      destruct (String.eqb who ""); [|exact Hwho].
      constructor; [simpl; tauto | constructor].
  - intros s. apply symbolic_to_octal_fails_iff.
Qed.

Lemma C3_trailing_text_ignored_witness :
  apply_operation ("ug" ++ String "+" ("rw" ++ "qx")) 0
  = apply_operation ("ug" ++ String "+" "rw") 0
  /\ exists m, apply_operation ("ug" ++ String "+" ("rw" ++ "qx")) 0 = Ok m.
Proof.
  apply (proj1 C3_trailing_text_ignored "ug" "+"%char "rw" "qx" 0).
  - repeat constructor; simpl; tauto.
  - simpl. tauto.
  - repeat constructor; simpl; tauto.
  - reflexivity.
Defined.

(** C4, as the specification states it, fails: [symbolic_to_octal] takes
    the expression only, so its result cannot follow a base chosen by the
    caller.  With the base 0o777 the clause "u+r" would give 0o777; the source
    gives 0o400. *)
Lemma C4_no_base_argument :
  ~ (forall (base : Z) (expression : string),
       symbolic_to_octal expression
       = apply_operations (PyStr.split "," expression) base).
Proof.
  intros H. specialize (H 511 "u+r"). discriminate H.
Qed.

(** C4, amended.  [symbolic_to_octal] takes the expression only; the
    accumulator always starts at 0 and the clauses are applied to it from
    left to right: the mode of [s1,s2] is the clauses of [s2] applied to the
    mode of [s1].  "a-rwx" gives 0, also after "a+rwx", and the order of the
    clauses matters. *)
Theorem C4_clauses_left_to_right_from_zero :
  (forall s : string,
     symbolic_to_octal s = apply_operations (PyStr.split "," s) 0)
  /\ (forall s1 s2 : string,
        symbolic_to_octal (s1 ++ String "," s2)
        = m ← symbolic_to_octal s1; apply_operations (PyStr.split "," s2) m)
  /\ symbolic_to_octal "a-rwx" = Ok 0
  /\ symbolic_to_octal "a+rwx,a-rwx" = Ok 0
  /\ symbolic_to_octal "u+rwx,u-w" = Ok 320
  /\ symbolic_to_octal "u-w,u+rwx" = Ok 448.
Proof.
  split; [reflexivity|]. split; [|repeat split].
  intros s1 s2. unfold symbolic_to_octal, apply_operations.
  rewrite split_app. apply for_each_app.
Qed.

(** C5.  Whenever [symbolic_to_octal] returns a mode, the mode lies in
    [0, 0o777] and has no bit outside the nine permission bits. *)
Theorem C5_result_within_nine_bits (s : string) (m : Z) :
  symbolic_to_octal s = Ok m ->
  0 <= m <= 511 /\ Z.land m (Z.lnot 511) = 0.
Proof.
  intros Hm. unfold symbolic_to_octal in Hm.
  assert (H9 : nine_bits m).
  { apply (apply_operations_nine_bits (PyStr.split "," s) 0); [reflexivity | exact Hm]. }
  split; [apply nine_bits_range; exact H9|].
  unfold nine_bits in H9. rewrite <- H9, <- Z.land_assoc, Z.land_lnot_diag.
  apply Z.land_0_r.
Qed.

Lemma C5_result_within_nine_bits_witness :
  0 <= 511 <= 511 /\ Z.land 511 (Z.lnot 511) = 0.
Proof.
  apply (C5_result_within_nine_bits "a+rwx" 511). reflexivity.
Defined.

(** ** [human_to_bytes] *)

Lemma upper_app (s t : string) :
  PyStr.upper (s ++ t) = PyStr.upper s ++ PyStr.upper t.
Proof. induction s as [|c s IH]; simpl; [reflexivity | rewrite IH; reflexivity]. Qed.

Lemma is_digit_upper_char (c : ascii) :
  PyStr.is_digit (PyStr.upper_char c) = PyStr.is_digit c.
Proof.
  unfold PyStr.upper_char, PyStr.is_digit.
  pose proof (N_ascii_bounded c) as Hb.
  destruct ((97 <=? N_of_ascii c)%N && (N_of_ascii c <=? 122)%N) eqn:Hlow;
    [|reflexivity].
  apply andb_true_iff in Hlow as [H1 H2].
  apply N.leb_le in H1. apply N.leb_le in H2.
  rewrite N_ascii_embedding by lia.
  assert (Hl : (N_of_ascii c - 32 <=? 57)%N = false) by (apply N.leb_gt; lia).
  assert (Hr : (N_of_ascii c <=? 57)%N = false) by (apply N.leb_gt; lia).
  rewrite Hl, Hr, !andb_false_r. reflexivity.
Qed.

Lemma upper_char_digit (c : ascii) :
  PyStr.is_digit c = true -> PyStr.upper_char c = c.
Proof.
  unfold PyStr.upper_char, PyStr.is_digit. intros H.
  apply andb_true_iff in H as [_ H2]. apply N.leb_le in H2.
  assert (Hl : (97 <=? N_of_ascii c)%N = false) by (apply N.leb_gt; lia).
  rewrite Hl. reflexivity.
Qed.

Lemma upper_digits (s : string) :
  Forall (fun c => PyStr.is_digit c = true) (PyStr.chars s) -> PyStr.upper s = s.
Proof.
  induction s as [|c s IH]; intros Hs; simpl; [reflexivity|].
  inversion Hs as [|? ? Hc Hs']; subst.
  rewrite (upper_char_digit c Hc), (IH Hs'). reflexivity.
Qed.

Lemma starts_with_digit_upper (s : string) :
  starts_with_digit (PyStr.upper s) = starts_with_digit s.
Proof. destruct s as [|c s]; simpl; [reflexivity | apply is_digit_upper_char]. Qed.

Lemma string_app_empty_r (s : string) : s ++ "" = s.
Proof. induction s as [|c s IH]; simpl; [reflexivity | rewrite IH; reflexivity]. Qed.

(** The digits are read up to the first character that is not one. *)
Lemma span_digits (num rest : string) :
  Forall (fun c => PyStr.is_digit c = true) (PyStr.chars num) ->
  starts_with_digit rest = false ->
  PyStr.span PyStr.is_digit (num ++ rest) = (num, rest).
Proof.
  intros Hnum Hrest. destruct rest as [|c rest].
  - rewrite string_app_empty_r. apply span_all. exact Hnum.
  - apply span_app; assumption.
Qed.

Lemma re_match_size_none (s : string) :
  re_match_size s = None <-> starts_with_digit s = false.
Proof.
  unfold re_match_size. destruct s as [|c s]; simpl; [tauto|].
  destruct (PyStr.is_digit c); [|tauto].
  destruct (PyStr.span PyStr.is_digit s) as [a b]. simpl.
  destruct b as [|c1 b]; [split; discriminate|].
  destruct (PyStr.mem c1 "KMGB"); split; discriminate.
Qed.

Lemma re_match_size_num (t num unit : string) :
  re_match_size t = Some (num, unit) -> num = leading_digits t.
Proof.
  unfold re_match_size, leading_digits.
  destruct (PyStr.span PyStr.is_digit t) as [num0 rest]. simpl.
  destruct (String.eqb num0 ""); [discriminate|].
  destruct rest as [|c r]; [|destruct (PyStr.mem c "KMGB")];
    intros [= <- _]; reflexivity.
Qed.

Lemma leading_digits_upper (s : string) :
  leading_digits (PyStr.upper s) = leading_digits s.
Proof.
  unfold leading_digits. induction s as [|c s IH]; simpl; [reflexivity|].
  rewrite is_digit_upper_char. destruct (PyStr.is_digit c) eqn:Hc; [|reflexivity].
  rewrite (upper_char_digit c Hc).
  destruct (PyStr.span PyStr.is_digit (PyStr.upper s)) as [a b].
  destruct (PyStr.span PyStr.is_digit s) as [a' b'].
  simpl in *. rewrite IH. reflexivity.
Qed.

Lemma human_to_bytes_number (max_str_digits : nat) (num rest : string) :
  num <> "" ->
  Forall (fun c => PyStr.is_digit c = true) (PyStr.chars num) ->
  starts_with_digit rest = false ->
  PyStr.int_limit_exceeded max_str_digits num = false ->
  human_to_bytes max_str_digits (num ++ rest)
  = Ok (PyStr.int_value num * suffix_multiplier rest).
Proof.
  intros Hne Hnum Hrest Hlimit.
  unfold human_to_bytes, re_match_size, suffix_multiplier.
  rewrite upper_app, (upper_digits num Hnum).
  rewrite span_digits by (rewrite ?starts_with_digit_upper; assumption).
  assert (Hnum_eqb : String.eqb num "" = false) by (apply String.eqb_neq; exact Hne).
  rewrite Hnum_eqb. unfold PyStr.int.
  destruct (PyStr.upper rest) as [|c r];
    [cbn; rewrite Hlimit; reflexivity|].
  unfold PyStr.mem. simpl.
  destruct (Ascii.eqb_spec c "K") as [-> | HK];
    [destruct r as [|c2 r]; [|cbn; destruct (Ascii.eqb c2 "B")];
     cbn; rewrite Hlimit; reflexivity|].
  destruct (Ascii.eqb_spec c "M") as [-> | HM];
    [destruct r as [|c2 r]; [|cbn; destruct (Ascii.eqb c2 "B")];
     cbn; rewrite Hlimit; reflexivity|].
  destruct (Ascii.eqb_spec c "G") as [-> | HG];
    [destruct r as [|c2 r]; [|cbn; destruct (Ascii.eqb c2 "B")];
     cbn; rewrite Hlimit; reflexivity|].
  destruct (Ascii.eqb_spec c "B") as [-> | HB];
    [destruct r as [|c2 r]; [|cbn; destruct (Ascii.eqb c2 "B")];
     cbn; rewrite Hlimit; reflexivity|].
  cbn. destruct (Ascii.eqb_spec c "B"); [contradiction|].
  cbn. rewrite Hlimit. reflexivity.
Qed.

(** What [human_to_bytes] does, by the first character and the number of
    leading digits. *)
Lemma human_to_bytes_cases (max_str_digits : nat) (s : string) :
  (starts_with_digit s = false
   /\ human_to_bytes max_str_digits s
      = Raise (ValueError ("Invalid size format: " ++ s)))
  \/ (starts_with_digit s = true
      /\ PyStr.int_limit_exceeded max_str_digits (leading_digits s) = true
      /\ exists msg, human_to_bytes max_str_digits s = Raise (ValueError msg))
  \/ (starts_with_digit s = true
      /\ PyStr.int_limit_exceeded max_str_digits (leading_digits s) = false
      /\ exists n, human_to_bytes max_str_digits s = Ok n).
Proof.
  unfold human_to_bytes.
  destruct (re_match_size (PyStr.upper s)) as [[num unit]|] eqn:Hm.
  - assert (Hd : starts_with_digit s = true).
    { rewrite <- starts_with_digit_upper.
      destruct (starts_with_digit (PyStr.upper s)) eqn:Hd; [reflexivity|].
      apply re_match_size_none in Hd. congruence. }
    apply re_match_size_num in Hm. rewrite leading_digits_upper in Hm. subst num.
    right. unfold PyStr.int.
    destruct (PyStr.int_limit_exceeded max_str_digits (leading_digits s)); simpl.
    + left. repeat split; [exact Hd | eexists; reflexivity].
    + right. repeat split; [exact Hd | eexists; reflexivity].
  - left. split; [|reflexivity].
    rewrite <- starts_with_digit_upper. apply re_match_size_none. exact Hm.
Qed.

(** C6, as the specification states it, fails twice over.  A suffix that
    is not a unit of the table does not always give the multiplier 1: "KX" is
    no unit, yet "5KX" is 5 * 1024.  And a text that starts with a decimal
    integer can fail: with the interpreter's default limit of 4300 digits, a
    number of 4301 digits is refused. *)
Lemma C6_unrecognised_suffix_not_always_one :
  ~ (forall (max_str_digits : nat) (num suffix : string),
       num <> "" ->
       Forall (fun c => PyStr.is_digit c = true) (PyStr.chars num) ->
       starts_with_digit suffix = false ->
       human_to_bytes max_str_digits (num ++ suffix)
       = Ok (PyStr.int_value num * spec_unit_multiplier suffix))
  /\ ~ (forall (max_str_digits : nat) (s : string),
          is_value_error (human_to_bytes max_str_digits s) = true
          <-> starts_with_digit s = false).
Proof.
  split.
  - intros H. specialize (H 4300%nat "5" "KX").
    assert (Hgo : human_to_bytes 4300 ("5" ++ "KX")
                  = Ok (PyStr.int_value "5" * spec_unit_multiplier "KX")).
    { apply H; [discriminate | repeat constructor | reflexivity]. }
    discriminate Hgo.
  - intros H. destruct (H 4300%nat (nines 4301)) as [Hfail _].
    assert (Hraises : is_value_error (human_to_bytes 4300 (nines 4301)) = true)
      by (vm_compute; reflexivity).
    specialize (Hfail Hraises). vm_compute in Hfail. discriminate Hfail.
Qed.

(** C6, amended.  [human_to_bytes] returns the leading decimal integer
    times a multiplier decided by the first character after the digits,
    whatever its case: K gives 1024, M gives 1024^2, G gives 1024^3, and
    anything else, or nothing, gives 1; the text after the unit is ignored.
    On the units of the table this is the multiplier of the table.  It raises
    ValueError exactly when the text does not start with a decimal digit, or
    when its leading digits are more than the interpreter's limit on the
    conversion of decimal strings allows: more than 640 and more than the
    limit, where the limit is not 0. *)
Theorem C6_size_is_number_times_first_letter_multiplier (max_str_digits : nat) :
  (forall num rest : string,
     num <> "" ->
     Forall (fun c => PyStr.is_digit c = true) (PyStr.chars num) ->
     starts_with_digit rest = false ->
     PyStr.int_limit_exceeded max_str_digits num = false ->
     human_to_bytes max_str_digits (num ++ rest)
     = Ok (PyStr.int_value num * suffix_multiplier rest))
  /\ (forall suffix : string,
        In (PyStr.upper suffix) ("" :: map fst units) ->
        suffix_multiplier suffix = spec_unit_multiplier suffix)
  /\ (forall s : string,
        (exists msg, human_to_bytes max_str_digits s = Raise (ValueError msg))
        <-> starts_with_digit s = false
            \/ PyStr.int_limit_exceeded max_str_digits (leading_digits s) = true)
  /\ (forall s : string,
        (exists n, human_to_bytes max_str_digits s = Ok n)
        <-> starts_with_digit s = true
            /\ PyStr.int_limit_exceeded max_str_digits (leading_digits s) = false)
  /\ (forall num : string,
        (String.length num <= 640)%nat \/ max_str_digits = 0%nat ->
        PyStr.int_limit_exceeded max_str_digits num = false)
  /\ human_to_bytes max_str_digits "5MB" = Ok (5 * 1024 * 1024)
  /\ human_to_bytes max_str_digits "10" = Ok 10
  /\ is_value_error (human_to_bytes max_str_digits "") = true
  /\ human_to_bytes max_str_digits "5X" = Ok 5
  /\ human_to_bytes max_str_digits "5KX" = Ok (5 * 1024).
Proof.
  split; [exact (human_to_bytes_number max_str_digits)|].
  split.
  { intros suffix. unfold suffix_multiplier, spec_unit_multiplier. simpl.
    intros [<- | [<- | [<- | [<- | [<- | [<- | [<- | [<- | []]]]]]]]];
      reflexivity. }
  split; [|split; [|split; [|repeat split]]].
  - intros s.
    destruct (human_to_bytes_cases max_str_digits s)
      as [[Hd Hr] | [(Hd & Hl & msg & Hr) | (Hd & Hl & n & Hr)]]; split.
    + intros _. left. exact Hd.
    + intros _. eexists. exact Hr.
    + intros _. right. exact Hl.
    + intros _. exists msg. exact Hr.
    + intros [msg Hmsg]. congruence.
    + intros [Hd' | Hl']; congruence.
  - intros s.
    destruct (human_to_bytes_cases max_str_digits s)
      as [[Hd Hr] | [(Hd & Hl & msg & Hr) | (Hd & Hl & n & Hr)]]; split.
    + intros [n Hn]. congruence.
    + intros [Hd' _]. congruence.
    + intros [n Hn]. congruence.
    + intros [_ Hl']. congruence.
    + intros _. split; assumption.
    + intros _. exists n. exact Hr.
  - intros num Hsmall. unfold PyStr.int_limit_exceeded.
    destruct Hsmall as [Hlen | ->].
    + apply Nat.ltb_ge in Hlen. rewrite Hlen. reflexivity.
    + rewrite andb_false_r. reflexivity.
Qed.

Lemma C6_size_is_number_times_first_letter_multiplier_witness :
  human_to_bytes 4300 "5KiB" = Ok 5120.
Proof.
  apply (proj1 (C6_size_is_number_times_first_letter_multiplier 4300) "5" "KiB").
  - discriminate.
  - repeat constructor.
  - reflexivity.
  - reflexivity.
Defined.

(** ** [dir_ls] and [path_filter] *)

Section ListingProperties.

Variable path_match : string -> string -> result bool.
Variable re_search : string -> string -> result bool.

Lemma filter_sublist {A : Type} (f : A -> bool) (l : list A) :
  sublist (List.filter f l) l.
Proof.
  induction l as [|x l IH]; simpl; [constructor|].
  destruct (f x); [apply sublist_skip | apply sublist_cons]; exact IH.
Qed.

(** The loop appends the kept paths in the order of the iteration. *)
Lemma dir_ls_loop_order (all : bool) (type_filter : string)
    (glob regexp : option string) (invert : bool) (it : iterator) :
  forall acc results,
    dir_ls_loop path_match re_search all type_filter glob regexp invert it acc
    = Ok results ->
    results
    = (acc ++ List.filter (kept path_match re_search all type_filter glob regexp invert)
                (yielded it))%list.
Proof.
  induction it as [|p rest IH|e]; intros acc results; simpl.
  - intros [= <-]. rewrite app_nil_r. reflexivity.
  - unfold kept.
    destruct (dir_ls_visit path_match re_search all type_filter glob regexp invert p)
      as [[|]|e]; simpl; [| |discriminate]; intros H; apply IH in H; subst.
    + rewrite <- app_assoc. reflexivity.
    + reflexivity.
  - discriminate.
Qed.

(** With a type filter that names a kind, a path of that kind raises. *)
Lemma type_filtering_same_kind_raises (type_filter : string) (p : Path) :
  (type_filter = "file" /\ is_file p = true)
  \/ (type_filter = "directory" /\ is_dir p = true)
  \/ (type_filter = "symlink" /\ is_symlink p = true) ->
  type_filtering type_filter p
  = Raise (ValueError ("Invalid type_filter: " ++ type_filter)).
Proof.
  unfold type_filtering.
  intros [[-> H] | [[-> H] | [-> H]]]; rewrite H; reflexivity.
Qed.

(** Only the filter "any" lets a path through the type block. *)
Lemma type_filtering_keeps_only_any (type_filter : string) (p : Path) :
  type_filtering type_filter p = Ok true -> type_filter = "any".
Proof.
  unfold type_filtering.
  destruct (String.eqb_spec type_filter "any") as [-> | Hne]; [reflexivity|].
  simpl.
  destruct (String.eqb type_filter "file" && negb (is_file p)); [discriminate|].
  destruct (String.eqb type_filter "directory" && negb (is_dir p)); [discriminate|].
  destruct (String.eqb type_filter "symlink" && negb (is_symlink p)); discriminate.
Qed.

(** In [dir_ls] a path is appended only when every active matcher, after
    inversion, lets it pass. *)
Lemma dir_ls_visit_both_matchers (all : bool) (type_filter : string)
    (glob regexp : option string) (invert : bool) (p : Path) :
  dir_ls_visit path_match re_search all type_filter glob regexp invert p = Ok true ->
  (forall g, truthy glob = Some g ->
     exists m, path_match g (str p) = Ok m /\ xorb m invert = true)
  /\ (forall r, truthy regexp = Some r ->
        exists m, re_search r (str p) = Ok m /\ xorb m invert = true).
Proof.
  unfold dir_ls_visit, match_condition.
  destruct (negb all && PyStr.startswith (name p) "."); [discriminate|].
  destruct (type_filtering type_filter p) as [[|]|e]; simpl; [|discriminate..].
  assert (Hpass : forall m : bool,
    negb (if m then negb invert else invert) = false -> xorb m invert = true).
  { intros m. destruct m, invert; simpl; congruence. }
  destruct (truthy glob) as [g|]; simpl.
  - destruct (path_match g (str p)) as [m|e] eqn:Hm; simpl; [|discriminate].
    destruct (negb (if m then negb invert else invert)) eqn:Hg; [discriminate|].
    destruct (truthy regexp) as [r|]; simpl.
    + destruct (re_search r (str p)) as [m'|e] eqn:Hm'; simpl; [|discriminate].
      destruct (negb (if m' then negb invert else invert)) eqn:Hr; [discriminate|].
      intros _. split; intros ? [= <-].
      * exists m. split; [exact Hm | apply Hpass; exact Hg].
      * exists m'. split; [exact Hm' | apply Hpass; exact Hr].
    + intros _. split; [|discriminate]. intros ? [= <-].
      exists m. split; [exact Hm | apply Hpass; exact Hg].
  - destruct (truthy regexp) as [r|]; simpl.
    + destruct (re_search r (str p)) as [m'|e] eqn:Hm'; simpl; [|discriminate].
      destruct (negb (if m' then negb invert else invert)) eqn:Hr; [discriminate|].
      intros _. split; [discriminate|]. intros ? [= <-].
      exists m'. split; [exact Hm' | apply Hpass; exact Hr].
    + intros _. split; discriminate.
Qed.

End ListingProperties.

(** With a type filter other than "any", [dir_ls] never returns a path:
    when it returns, the list is empty. *)
Lemma dir_ls_kind_filter_returns_nothing
    (path_match re_search : string -> string -> result bool)
    (fs : FileSystem) (path : string) (all recurse : bool)
    (type_filter : string) (glob regexp : option string) (invert fail : bool)
    (results : list Path) :
  type_filter <> "any" ->
  dir_ls path_match re_search fs path all recurse type_filter glob regexp invert fail
  = Ok results ->
  results = [].
Proof.
  intros Hne. unfold dir_ls.
  destruct (negb (fs_exists fs path)).
  { destruct fail; [discriminate | intros [= <-]; reflexivity]. }
  destruct (negb (fs_is_dir fs path)); [discriminate|].
  match goal with
  | |- match ?loop with _ => _ end = _ -> _ => destruct loop as [rs|e] eqn:Hloop
  end; [|discriminate].
  intros [= <-]. apply dir_ls_loop_order in Hloop. subst rs. simpl.
  match goal with |- List.filter ?f ?l = [] => generalize l end.
  intros ys. induction ys as [|p ys IH]; simpl; [reflexivity|].
  destruct (kept path_match re_search all type_filter glob regexp invert p) eqn:Hk;
    [|exact IH].
  exfalso. apply Hne. unfold kept, dir_ls_visit in Hk.
  destruct (negb all && PyStr.startswith (name p) "."); [discriminate|].
  destruct (type_filtering type_filter p) as [[|]|e] eqn:Ht; simpl in Hk;
    [|discriminate..].
  apply (type_filtering_keeps_only_any type_filter p). exact Ht.
Qed.

(** C7.  An invalid type filter is meant to fail with ValueError before
    anything is listed.  The source tests the filter only inside the loop:
    on an empty directory, or on a missing root with [fail] off, it returns
    the empty list, and when a path is met the ValueError comes out wrapped in
    a RuntimeError. *)
Theorem C7_invalid_type_filter_checked_per_entry
    (path_match re_search : string -> string -> result bool) :
  dir_ls path_match re_search (every_directory_lists Stop)
    "d" false false "bogus" None None false true = Ok []
  /\ dir_ls path_match re_search nothing_exists
       "d" false false "bogus" None None false false = Ok []
  /\ dir_ls path_match re_search
       (every_directory_lists (Yield (regular_file "d/a.txt" "a.txt") Stop))
       "d" false false "bogus" None None false true
     = Raise (RuntimeError "d" (ValueError "Invalid type_filter: bogus")).
Proof. repeat split. Qed.

(** C8.  A path whose kind is the one asked for is meant to be kept.  In
    the source such a path falls through the chain of conditions to the
    final [raise]: listing a directory that holds one regular file with the
    type filter "file" raises instead of returning the file. *)
Theorem C8_matching_kind_raises
    (path_match re_search : string -> string -> result bool) :
  dir_ls path_match re_search
    (every_directory_lists (Yield (regular_file "d/a.txt" "a.txt") Stop))
    "d" false false "file" None None false true
  = Raise (RuntimeError "d" (ValueError "Invalid type_filter: file"))
  /\ dir_ls path_match re_search
       (every_directory_lists (Yield (mkPath "d/sub" "sub" false true false) Stop))
       "d" false false "directory" None None false true
     = Raise (RuntimeError "d" (ValueError "Invalid type_filter: directory"))
  /\ dir_ls path_match re_search
       (every_directory_lists (Yield (mkPath "d/l" "l" false false true) Stop))
       "d" false false "symlink" None None false true
     = Raise (RuntimeError "d" (ValueError "Invalid type_filter: symlink")).
Proof. repeat split. Qed.

(** C9.  With both patterns given a path is meant to pass both matchers.
    [dir_ls] does so ([dir_ls_visit_both_matchers]); in [path_filter] the
    outcome of the regular expression overwrites the outcome of the glob, so
    the glob has no effect: the path is returned exactly when the regular
    expression, after inversion, lets it pass. *)
Theorem C9_path_filter_ignores_glob_when_regexp_given
    (path_match re_search : string -> string -> result bool)
    (p : Path) (glob regexp : string) (invert glob_found regexp_found : bool) :
  glob <> "" -> regexp <> "" ->
  path_match glob (str p) = Ok glob_found ->
  re_search regexp (str p) = Ok regexp_found ->
  path_filter path_match re_search [p] (Some glob) (Some regexp) invert
  = Ok (if xorb regexp_found invert then [p] else []).
Proof.
  intros Hg Hr Hpm Hrs. unfold path_filter, path_filter_match, match_condition.
  simpl. apply String.eqb_neq in Hg. apply String.eqb_neq in Hr.
  rewrite Hg, Hr, Hpm. simpl. rewrite Hrs. simpl.
  destruct regexp_found, invert; reflexivity.
Qed.

Lemma C9_path_filter_ignores_glob_when_regexp_given_witness :
  path_filter (fun pat s => Ok (String.eqb pat s))
    (fun pat s => Ok (String.prefix pat s))
    [regular_file "a.txt" "a.txt"] (Some "*.py") (Some "a") false
  = Ok [regular_file "a.txt" "a.txt"].
Proof.
  apply (C9_path_filter_ignores_glob_when_regexp_given
           (fun pat s => Ok (String.eqb pat s))
           (fun pat s => Ok (String.prefix pat s))
           (regular_file "a.txt" "a.txt") "*.py" "a" false false true).
  - discriminate.
  - discriminate.
  - reflexivity.
  - reflexivity.
Defined.

(** C10, as the specification states it, fails: when the directory yields
    b.txt before a.txt, [dir_ls] returns them in that order. *)
Lemma C10_results_not_sorted :
  ~ (forall (path_match re_search : string -> string -> result bool)
       (fs : FileSystem) (path : string) (all recurse : bool)
       (type_filter : string) (glob regexp : option string)
       (invert fail : bool) (results : list Path),
       dir_ls path_match re_search fs path all recurse type_filter glob regexp
         invert fail = Ok results ->
       sorted_by_str results = true).
Proof.
  intros H.
  specialize (H (fun _ _ => Ok true) (fun _ _ => Ok true)
    (every_directory_lists
       (Yield (regular_file "d/b.txt" "b.txt")
          (Yield (regular_file "d/a.txt" "a.txt") Stop)))
    "d" false false "any" None None false true
    [regular_file "d/b.txt" "b.txt"; regular_file "d/a.txt" "a.txt"]
    eq_refl).
  discriminate H.
Qed.

(** C10, amended.  When [dir_ls] returns, the paths are in the order in
    which the iteration over the directory yielded them: the result is a
    subsequence of what was yielded, and when the root exists it is exactly
    the yielded paths that were kept, in that order.  Nothing is sorted. *)
Theorem C10_results_in_iteration_order
    (path_match re_search : string -> string -> result bool)
    (fs : FileSystem) (path : string) (all recurse : bool)
    (type_filter : string) (glob regexp : option string) (invert fail : bool)
    (results : list Path) :
  dir_ls path_match re_search fs path all recurse type_filter glob regexp invert fail
  = Ok results ->
  sublist results
    (yielded (if recurse then fs_rglob fs path else fs_iterdir fs path))
  /\ (fs_exists fs path = true ->
      results
      = List.filter (kept path_match re_search all type_filter glob regexp invert)
          (yielded (if recurse then fs_rglob fs path else fs_iterdir fs path))).
Proof.
  unfold dir_ls. destruct (fs_exists fs path); simpl.
  - destruct (negb (fs_is_dir fs path)); [discriminate|].
    match goal with
    | |- match ?loop with _ => _ end = _ -> _ => destruct loop as [rs|e] eqn:Hloop
    end; [|discriminate].
    intros [= <-]. apply dir_ls_loop_order in Hloop. simpl in Hloop. subst rs.
    split; [apply filter_sublist | reflexivity].
  - destruct fail; [discriminate|]. intros [= <-].
    split; [apply sublist_nil_l | discriminate].
Qed.

Lemma C10_results_in_iteration_order_witness :
  sublist [regular_file "d/b.txt" "b.txt"; regular_file "d/a.txt" "a.txt"]
    [regular_file "d/b.txt" "b.txt"; regular_file "d/a.txt" "a.txt"]
  /\ (true = true ->
      [regular_file "d/b.txt" "b.txt"; regular_file "d/a.txt" "a.txt"]
      = [regular_file "d/b.txt" "b.txt"; regular_file "d/a.txt" "a.txt"]).
Proof.
  apply (C10_results_in_iteration_order (fun _ _ => Ok true) (fun _ _ => Ok true)
    (every_directory_lists
       (Yield (regular_file "d/b.txt" "b.txt")
          (Yield (regular_file "d/a.txt" "a.txt") Stop)))
    "d" false false "any" None None false true).
  reflexivity.
Defined.

(** ** Worked examples *)

Example symbolic_754 : symbolic_to_octal "u+rwx,g+rx,o+r" = Ok 492.
Proof. reflexivity. Qed.

Example symbolic_777 : symbolic_to_octal "a+rwx" = Ok 511.
Proof. reflexivity. Qed.

Example symbolic_single_assignments : symbolic_to_octal "u=r,g=r,o=r" = Ok 292.
Proof. reflexivity. Qed.

Example symbolic_blank_padded : symbolic_to_octal " u+r , g+r" = Ok 288.
Proof. reflexivity. Qed.

Example symbolic_trailing_comma : is_value_error (symbolic_to_octal "u+r,") = true.
Proof. reflexivity. Qed.

Example bytes_lower_case : human_to_bytes 4300 "2gb" = Ok (2 * 1024 ^ 3).
Proof. reflexivity. Qed.

Example bytes_leading_blank : is_value_error (human_to_bytes 4300 " 5") = true.
Proof. reflexivity. Qed.

Example bytes_digit_limit :
  returns (human_to_bytes 4300 (nines 4300)) = true
  /\ is_value_error (human_to_bytes 4300 (nines 4301)) = true
  /\ returns (human_to_bytes 0 (nines 4301)) = true.
Proof. repeat split; vm_compute; reflexivity. Qed.

Example ls_hides_dot_files
    (path_match re_search : string -> string -> result bool) :
  dir_ls path_match re_search
    (every_directory_lists
       (of_list [regular_file "d/.hidden" ".hidden"; regular_file "d/a.txt" "a.txt";
                 mkPath "d/sub" "sub" false true false]))
    "d" false false "any" None None false true
  = Ok [regular_file "d/a.txt" "a.txt"; mkPath "d/sub" "sub" false true false].
Proof. reflexivity. Qed.

Example ls_missing_root
    (path_match re_search : string -> string -> result bool) :
  dir_ls path_match re_search nothing_exists "d" false false "any" None None false true
  = Raise (FileNotFoundError "Path d does not exist.")
  /\ dir_ls path_match re_search nothing_exists "d" false false "any" None None false false
     = Ok [].
Proof. split; reflexivity. Qed.

Example ls_wraps_listing_failure
    (path_match re_search : string -> string -> result bool) :
  dir_ls path_match re_search
    (every_directory_lists
       (Yield (regular_file "d/a.txt" "a.txt") (Throw (OSError "Permission denied"))))
    "d" false false "any" None None false true
  = Raise (RuntimeError "d" (OSError "Permission denied")).
Proof. reflexivity. Qed.

(** * Further properties *)

(** ** Granting and revoking *)

Lemma apply_perm_grant (w p : ascii) (perm : Z) :
  In w (PyStr.chars "ugoa") ->
  apply_perm "+" w p perm = Ok (Z.lor perm (bit_of w p)).
Proof.
  simpl. unfold apply_perm, bit_of.
  intros [<- | [<- | [<- | [<- | []]]]]; unfold dict_has, dict_get; simpl;
    destruct (Ascii.eqb p "r"), (Ascii.eqb p "w"), (Ascii.eqb p "x"); simpl;
    rewrite ?Z.lor_0_r; reflexivity.
Qed.

Lemma apply_perm_revoke (w p : ascii) (perm : Z) :
  In w (PyStr.chars "ugoa") ->
  apply_perm "-" w p perm = Ok (Z.land perm (Z.lnot (bit_of w p))).
Proof.
  simpl. unfold apply_perm, bit_of.
  intros [<- | [<- | [<- | [<- | []]]]]; unfold dict_has, dict_get; simpl;
    destruct (Ascii.eqb p "r"), (Ascii.eqb p "w"), (Ascii.eqb p "x"); simpl;
    rewrite ?Z.land_m1_r; reflexivity.
Qed.

Lemma apply_clause_grant (who perms : string) (perm : Z) :
  Forall (fun c => In c (PyStr.chars "ugoa")) (PyStr.chars who) ->
  apply_clause who "+" perms perm = Ok (Z.lor perm (clause_mask who perms)).
Proof.
  unfold apply_clause, clause_mask. revert perm.
  induction (PyStr.chars who) as [|w ws IH]; intros perm Hwho; simpl.
  - rewrite Z.lor_0_r. reflexivity.
  - inversion Hwho as [|? ? Hw Hws]; subst.
    assert (Hrow : forall ps acc,
      for_each ps (apply_perm "+" w) acc = Ok (Z.lor acc (row_mask w ps))).
    { induction ps as [|p ps IHp]; intros acc; simpl.
      - rewrite Z.lor_0_r. reflexivity.
      - rewrite (apply_perm_grant w p acc Hw). simpl.
        rewrite IHp, Z.lor_assoc. reflexivity. }
    rewrite Hrow. simpl. rewrite (IH _ Hws), Z.lor_assoc. reflexivity.
Qed.

Lemma apply_clause_revoke (who perms : string) (perm : Z) :
  Forall (fun c => In c (PyStr.chars "ugoa")) (PyStr.chars who) ->
  apply_clause who "-" perms perm
  = Ok (Z.land perm (Z.lnot (clause_mask who perms))).
Proof.
  unfold apply_clause, clause_mask. revert perm.
  induction (PyStr.chars who) as [|w ws IH]; intros perm Hwho; simpl.
  - rewrite Z.lnot_0, Z.land_m1_r. reflexivity.
  - inversion Hwho as [|? ? Hw Hws]; subst.
    assert (Hrow : forall ps acc,
      for_each ps (apply_perm "-" w) acc
      = Ok (Z.land acc (Z.lnot (row_mask w ps)))).
    { induction ps as [|p ps IHp]; intros acc; simpl.
      - rewrite Z.lnot_0, Z.land_m1_r. reflexivity.
      - rewrite (apply_perm_revoke w p acc Hw). simpl.
        rewrite IHp, Z.lnot_lor, Z.land_assoc. reflexivity. }
    rewrite Hrow. simpl.
    rewrite (IH _ Hws), Z.lnot_lor, Z.land_assoc. reflexivity.
Qed.

Lemma who_or_all_valid (who : string) :
  Forall (fun c => In c (PyStr.chars "ugoa")) (PyStr.chars who) ->
  Forall (fun c => In c (PyStr.chars "ugoa")) (PyStr.chars (who_or_all who)).
Proof.
  intros Hwho. unfold who_or_all. destruct (String.eqb who ""); [|exact Hwho].
  constructor; [simpl; tauto | constructor].
Qed.

(** X1.  A clause with the sign "+" sets, on top of the bits already in
    the accumulator, every named permission bit of every named category (all
    three categories when none is named), and changes nothing else. *)
Theorem X1_grant_clause_sets_named_bits (who perms : string) (perm : Z) :
  Forall (fun c => In c (PyStr.chars "ugoa")) (PyStr.chars who) ->
  Forall (fun c => In c (PyStr.chars "rwx")) (PyStr.chars perms) ->
  apply_operation (who ++ String "+" perms) perm
  = Ok (Z.lor perm (clause_mask (who_or_all who) perms)).
Proof.
  intros Hwho Hperms.
  rewrite apply_operation_clause; [|assumption|simpl; tauto|assumption].
  apply apply_clause_grant. apply who_or_all_valid. exact Hwho.
Qed.

Lemma X1_grant_clause_sets_named_bits_witness :
  apply_operation "ug+rx" 4 = Ok 364.
Proof.
  apply (X1_grant_clause_sets_named_bits "ug" "rx" 4); repeat constructor;
    simpl; tauto.
Defined.

(** X2.  A clause with the sign "-" clears every named permission bit of
    every named category (all three categories when none is named) and keeps
    every other bit of the accumulator. *)
Theorem X2_revoke_clause_clears_named_bits (who perms : string) (perm : Z) :
  Forall (fun c => In c (PyStr.chars "ugoa")) (PyStr.chars who) ->
  Forall (fun c => In c (PyStr.chars "rwx")) (PyStr.chars perms) ->
  apply_operation (who ++ String "-" perms) perm
  = Ok (Z.land perm (Z.lnot (clause_mask (who_or_all who) perms))).
Proof.
  intros Hwho Hperms.
  rewrite apply_operation_clause; [|assumption|simpl; tauto|assumption].
  apply apply_clause_revoke. apply who_or_all_valid. exact Hwho.
Qed.

Lemma X2_revoke_clause_clears_named_bits_witness :
  apply_operation "go-w" 511 = Ok 493.
Proof.
  apply (X2_revoke_clause_clears_named_bits "go" "w" 511); repeat constructor;
    simpl; tauto.
Defined.

(** ** Assignment to one category *)

Lemma apply_perm_assign (w p : ascii) (perm : Z) :
  In w (PyStr.chars "ugo") -> In p (PyStr.chars "rwx") ->
  apply_perm "=" w p perm
  = Ok (Z.lor (Z.land perm (Z.lnot (category_mask w))) (bit_of w p)).
Proof.
  simpl. unfold apply_perm, category_mask, bit_of.
  intros [<- | [<- | [<- | []]]] [<- | [<- | [<- | []]]];
    unfold dict_has, dict_get; simpl;
    rewrite !Z.lnot_lor, !Z.land_assoc; reflexivity.
Qed.

Lemma bit_within_category (w p : ascii) :
  In w (PyStr.chars "ugo") ->
  Z.land (bit_of w p) (Z.lnot (category_mask w)) = 0.
Proof.
  simpl. unfold category_mask, bit_of.
  intros [<- | [<- | [<- | []]]]; simpl;
    destruct (Ascii.eqb p "r"), (Ascii.eqb p "w"), (Ascii.eqb p "x");
    reflexivity.
Qed.

Lemma apply_perms_assign (w : ascii) (perms : string) (perm : Z) :
  In w (PyStr.chars "ugo") ->
  Forall (fun c => In c (PyStr.chars "rwx")) (PyStr.chars perms) ->
  for_each (PyStr.chars perms) (apply_perm "=" w) perm
  = Ok match last_char perms with
       | None => perm
       | Some p => Z.lor (Z.land perm (Z.lnot (category_mask w))) (bit_of w p)
       end.
Proof.
  intros Hw. revert perm.
  induction perms as [|p ps IH]; intros perm Hps; [reflexivity|].
  inversion Hps as [|? ? Hp Hps']; subst. simpl PyStr.chars. simpl for_each.
  rewrite (apply_perm_assign w p perm Hw Hp). simpl mbind.
  change (for_each (list_ascii_of_string ps)) with (for_each (PyStr.chars ps)).
  rewrite (IH _ Hps'). destruct ps as [|q qs]; [reflexivity|].
  simpl last_char. destruct (last_char (String q qs)) as [l|] eqn:Hl.
  - assert (Hl' : match qs with "" => Some q | String _ _ => last_char qs end = Some l)
      by exact Hl.
    rewrite Hl'. do 2 f_equal.
    rewrite Z.land_lor_distr_l, (bit_within_category w p Hw), Z.lor_0_r.
    rewrite <- Z.land_assoc, Z.land_diag. reflexivity.
  - exfalso. revert Hl. clear. revert q.
    induction qs as [|c qs IHq]; intros q; simpl; [discriminate | apply IHq].
Qed.

(** X3.  A clause with the sign "=" that names one of the categories u, g
    and o with at least one permission letter clears the three bits of that
    category and leaves set the bit of the last permission letter only; with
    no permission letter it changes nothing.  The bits of the other
    categories are never touched. *)
Theorem X3_assign_one_category (w : ascii) (perms : string) (perm : Z) :
  In w (PyStr.chars "ugo") ->
  Forall (fun c => In c (PyStr.chars "rwx")) (PyStr.chars perms) ->
  apply_operation (String w (String "=" perms)) perm
  = Ok match last_char perms with
       | None => perm
       | Some p => Z.lor (Z.land perm (Z.lnot (category_mask w))) (bit_of w p)
       end.
Proof.
  intros Hw Hperms.
  assert (Hwho : Forall (fun c => In c (PyStr.chars "ugoa")) (PyStr.chars (String w ""))).
  { constructor; [|constructor]. simpl in *. tauto. }
  change (String w (String "=" perms)) with (String w "" ++ String "=" perms).
  rewrite apply_operation_clause; [|assumption|simpl; tauto|assumption].
  simpl String.eqb. unfold apply_clause. simpl for_each.
  rewrite (apply_perms_assign w perms perm Hw Hperms). reflexivity.
Qed.

Lemma X3_assign_one_category_witness :
  apply_operation "g=rx" 511 = Ok 463.
Proof.
  apply (X3_assign_one_category "g" "rx" 511); repeat constructor; simpl; tauto.
Defined.

(** ** White space and empty clauses *)

Lemma lstrip_spaces_app (pad s : string) :
  Forall (fun c => PyStr.is_space c = true) (PyStr.chars pad) ->
  PyStr.lstrip (pad ++ s) = PyStr.lstrip s.
Proof.
  induction pad as [|c pad IH]; intros Hpad; simpl; [reflexivity|].
  inversion Hpad as [|? ? Hc Hpad']; subst. rewrite Hc. apply IH. exact Hpad'.
Qed.

Lemma rstrip_spaces (pad : string) :
  Forall (fun c => PyStr.is_space c = true) (PyStr.chars pad) ->
  PyStr.rstrip pad = "".
Proof.
  induction pad as [|c pad IH]; intros Hpad; simpl; [reflexivity|].
  inversion Hpad as [|? ? Hc Hpad']; subst. rewrite (IH Hpad'), Hc. reflexivity.
Qed.

Lemma rstrip_app_spaces (s pad : string) :
  Forall (fun c => PyStr.is_space c = true) (PyStr.chars pad) ->
  PyStr.rstrip (s ++ pad) = PyStr.rstrip s.
Proof.
  intros Hpad. induction s as [|c s IH]; simpl.
  - apply rstrip_spaces. exact Hpad.
  - rewrite IH. reflexivity.
Qed.

Lemma strip_padding (pad1 op pad2 : string) :
  Forall (fun c => PyStr.is_space c = true) (PyStr.chars pad1) ->
  Forall (fun c => PyStr.is_space c = true) (PyStr.chars pad2) ->
  PyStr.strip (pad1 ++ op ++ pad2) = PyStr.strip op.
Proof.
  intros H1 H2. unfold PyStr.strip. rewrite (lstrip_spaces_app pad1 _ H1).
  induction op as [|c op IH]; simpl.
  - rewrite <- (string_app_empty_r pad2) at 1.
    rewrite (lstrip_spaces_app pad2 "" H2). reflexivity.
  - destruct (PyStr.is_space c); [exact IH|].
    apply (rstrip_app_spaces (String c op) pad2 H2).
Qed.

(** X4.  White space before and after a clause is ignored: a clause that
    compiles gives the same mode when it is padded with white space. *)
Theorem X4_clause_padding_ignored (pad1 op pad2 : string) (perm : Z) :
  Forall (fun c => PyStr.is_space c = true) (PyStr.chars pad1) ->
  Forall (fun c => PyStr.is_space c = true) (PyStr.chars pad2) ->
  accepts op = true ->
  apply_operation (pad1 ++ op ++ pad2) perm = apply_operation op perm.
Proof.
  intros H1 H2 Hop. unfold accepts in Hop. unfold apply_operation.
  rewrite (strip_padding pad1 op pad2 H1 H2).
  destruct (re_match_symbolic (PyStr.strip op)); [reflexivity | discriminate].
Qed.

Lemma X4_clause_padding_ignored_witness :
  apply_operation "  u+rw " 0 = apply_operation "u+rw" 0.
Proof.
  apply (X4_clause_padding_ignored "  " "u+rw" " " 0);
    [repeat constructor | repeat constructor | reflexivity].
Defined.

Lemma apply_operations_rejected (operations : list string) (perm : Z) :
  Exists (fun op => accepts op = false) operations ->
  exists msg, apply_operations operations perm = Raise (ValueError msg).
Proof.
  intros Hex.
  destruct (apply_operations_cases operations perm) as [[Hall _] | [_ Hmsg]];
    [|exact Hmsg].
  exfalso. rewrite List.Forall_forall in Hall.
  rewrite List.Exists_exists in Hex. destruct Hex as (op & Hin & Hop).
  rewrite (Hall op Hin) in Hop. discriminate.
Qed.

Lemma accepts_blank (blank : string) :
  Forall (fun c => PyStr.is_space c = true) (PyStr.chars blank) ->
  accepts blank = false.
Proof.
  intros Hb. unfold accepts.
  rewrite <- (string_app_empty_r blank).
  change (blank ++ "") with (blank ++ "" ++ "").
  rewrite (strip_padding blank "" "" Hb) by constructor. reflexivity.
Qed.

Lemma split_head (sep : ascii) (s : string) :
  exists piece pieces, PyStr.split sep s = piece :: pieces.
Proof.
  pose proof (split_nonempty sep s) as Hne.
  destruct (PyStr.split sep s) as [|piece pieces]; [contradiction|].
  exists piece, pieces. reflexivity.
Qed.

Lemma split_blank_first (blank rest : string) :
  Forall (fun c => PyStr.is_space c = true) (PyStr.chars blank) ->
  exists pieces, PyStr.split "," (blank ++ String "," rest) = blank :: pieces.
Proof.
  induction blank as [|c blank IH]; intros Hb; simpl.
  - eexists. reflexivity.
  - inversion Hb as [|? ? Hc Hb']; subst.
    destruct (Ascii.eqb_spec c ",") as [-> | _]; [discriminate Hc|].
    destruct (IH Hb') as [pieces ->]. eexists. reflexivity.
Qed.

Lemma split_blank_only (blank : string) :
  Forall (fun c => PyStr.is_space c = true) (PyStr.chars blank) ->
  PyStr.split "," blank = [blank].
Proof.
  induction blank as [|c blank IH]; intros Hb; simpl; [reflexivity|].
  inversion Hb as [|? ? Hc Hb']; subst.
  destruct (Ascii.eqb_spec c ",") as [-> | _]; [discriminate Hc|].
  rewrite (IH Hb'). reflexivity.
Qed.

(** X5.  An empty or blank clause makes the whole expression fail with
    ValueError, wherever it stands: after a trailing comma, before a leading
    comma, or between two commas. *)
Theorem X5_blank_clause_fails (s1 s2 blank : string) :
  Forall (fun c => PyStr.is_space c = true) (PyStr.chars blank) ->
  is_value_error (symbolic_to_octal (s1 ++ String "," blank)) = true
  /\ is_value_error (symbolic_to_octal (blank ++ String "," s2)) = true
  /\ is_value_error
       (symbolic_to_octal (s1 ++ String "," (blank ++ String "," s2))) = true.
Proof.
  intros Hb. pose proof (accepts_blank blank Hb) as Hrej.
  assert (Hfail : forall ops,
    Exists (fun op => accepts op = false) ops ->
    is_value_error (apply_operations ops 0) = true).
  { intros ops Hex. destruct (apply_operations_rejected ops 0 Hex) as [msg ->].
    reflexivity. }
  unfold symbolic_to_octal. repeat split; apply Hfail.
  - rewrite split_app, (split_blank_only blank Hb).
    apply Exists_app. right. apply Exists_cons_hd. exact Hrej.
  - destruct (split_blank_first blank s2 Hb) as [pieces ->].
    apply Exists_cons_hd. exact Hrej.
  - rewrite split_app. destruct (split_blank_first blank s2 Hb) as [pieces ->].
    apply Exists_app. right. apply Exists_cons_hd. exact Hrej.
Qed.

Lemma X5_blank_clause_fails_witness :
  is_value_error (symbolic_to_octal ("u+r" ++ String "," " ")) = true
  /\ is_value_error (symbolic_to_octal (" " ++ String "," "g+r")) = true
  /\ is_value_error
       (symbolic_to_octal ("u+r" ++ String "," (" " ++ String "," "g+r"))) = true.
Proof.
  apply (X5_blank_clause_fails "u+r" "g+r" " "). repeat constructor.
Defined.

(** ** Sizes *)

Lemma digit_value_bounds (c : ascii) :
  PyStr.is_digit c = true -> 0 <= PyStr.digit_value c <= 9.
Proof.
  unfold PyStr.is_digit, PyStr.digit_value. intros H.
  apply andb_true_iff in H as [H1 H2].
  apply N.leb_le in H1. apply N.leb_le in H2. lia.
Qed.

Lemma int_nonneg (num : string) :
  Forall (fun c => PyStr.is_digit c = true) (PyStr.chars num) ->
  0 <= PyStr.int_value num.
Proof.
  unfold PyStr.int_value. intros Hnum.
  assert (Hacc : forall cs acc,
    Forall (fun c => PyStr.is_digit c = true) cs -> 0 <= acc ->
    0 <= fold_left (fun a c => 10 * a + PyStr.digit_value c) cs acc).
  { induction cs as [|c cs IH]; intros acc Hcs Hacc; simpl; [exact Hacc|].
    inversion Hcs as [|? ? Hc Hcs']; subst. apply IH; [exact Hcs'|].
    pose proof (digit_value_bounds c Hc). lia. }
  apply Hacc; [exact Hnum | lia].
Qed.

Lemma units_get_positive (unit : string) : 0 < units_get units unit 1.
Proof.
  unfold units. simpl.
  repeat match goal with
         | |- context [String.eqb unit ?k] => destruct (String.eqb unit k)
         end; reflexivity.
Qed.

Lemma re_match_size_digits (s num unit : string) :
  re_match_size s = Some (num, unit) ->
  Forall (fun c => PyStr.is_digit c = true) (PyStr.chars num).
Proof.
  unfold re_match_size.
  pose proof (span_spec PyStr.is_digit s) as (_ & Hnum & _).
  destruct (PyStr.span PyStr.is_digit s) as [num0 rest]. simpl in Hnum.
  destruct (String.eqb num0 ""); [discriminate|].
  destruct rest as [|c r]; [|destruct (PyStr.mem c "KMGB")];
    intros [= <- _]; exact Hnum.
Qed.

(** X6.  A size that [human_to_bytes] returns is never negative. *)
Theorem X6_size_never_negative (max_str_digits : nat) (s : string) (n : Z) :
  human_to_bytes max_str_digits s = Ok n -> 0 <= n.
Proof.
  unfold human_to_bytes.
  destruct (re_match_size (PyStr.upper s)) as [[num unit]|] eqn:Hm; [|discriminate].
  unfold PyStr.int.
  destruct (PyStr.int_limit_exceeded max_str_digits num); simpl; [discriminate|].
  intros [= <-]. apply re_match_size_digits in Hm.
  pose proof (units_get_positive unit) as H.
  apply Z.mul_nonneg_nonneg; [apply int_nonneg; exact Hm|].
  apply Z.lt_le_incl. exact H.
Qed.

Lemma X6_size_never_negative_witness : 0 <= 3072.
Proof. apply (X6_size_never_negative 4300 "3k" 3072). reflexivity. Defined.

Lemma upper_char_idempotent (c : ascii) :
  PyStr.upper_char (PyStr.upper_char c) = PyStr.upper_char c.
Proof.
  unfold PyStr.upper_char.
  pose proof (N_ascii_bounded c) as Hb.
  destruct ((97 <=? N_of_ascii c)%N && (N_of_ascii c <=? 122)%N) eqn:Hlow.
  - apply andb_true_iff in Hlow as [H1 H2].
    apply N.leb_le in H1. apply N.leb_le in H2.
    rewrite N_ascii_embedding by lia.
    assert (Hl : (97 <=? N_of_ascii c - 32)%N = false) by (apply N.leb_gt; lia).
    rewrite Hl. reflexivity.
  - rewrite Hlow. reflexivity.
Qed.

Lemma upper_idempotent (s : string) : PyStr.upper (PyStr.upper s) = PyStr.upper s.
Proof.
  induction s as [|c s IH]; simpl; [reflexivity|].
  rewrite upper_char_idempotent, IH. reflexivity.
Qed.

(** X7.  [human_to_bytes] does not tell upper case from lower case: a
    text and its upper-case form give the same size, and one fails exactly
    when the other does. *)
Theorem X7_size_ignores_case (max_str_digits : nat) (s : string) :
  (forall n, human_to_bytes max_str_digits s = Ok n
             <-> human_to_bytes max_str_digits (PyStr.upper s) = Ok n)
  /\ is_value_error (human_to_bytes max_str_digits s)
     = is_value_error (human_to_bytes max_str_digits (PyStr.upper s)).
Proof.
  unfold human_to_bytes. rewrite upper_idempotent.
  destruct (re_match_size (PyStr.upper s)) as [[num unit]|]; simpl.
  - split; [intros n; tauto | reflexivity].
  - split; [|reflexivity]. intros n. split; discriminate.
Qed.

(** ** [file_access] *)

Lemma split_whitespace_blank (s : string) :
  Forall (fun c => PyStr.is_space c = true) (PyStr.chars s) ->
  split_whitespace s = [].
Proof.
  induction s as [|c s IH]; intros Hs; simpl; [reflexivity|].
  inversion Hs as [|? ? Hc Hs']; subst. rewrite Hc. apply IH. exact Hs'.
Qed.

(** X8.  With a mode that is empty or all white space [file_access]
    answers true without asking the operating system anything, whatever the
    path. *)
Theorem X8_access_blank_mode_true
    (os_access : string -> Z -> bool) (path mode : string) :
  Forall (fun c => PyStr.is_space c = true) (PyStr.chars mode) ->
  file_access os_access path mode = Ok true.
Proof.
  intros Hmode. unfold file_access.
  rewrite (split_whitespace_blank mode Hmode). reflexivity.
Qed.

Lemma X8_access_blank_mode_true_witness :
  file_access (fun _ _ => false) "/no/such/file" "  " = Ok true.
Proof.
  apply (X8_access_blank_mode_true (fun _ _ => false) "/no/such/file" "  ").
  repeat constructor.
Defined.

Lemma collect_modes_from (words : list string) (acc : list Z) :
  for_each words
    (fun m modes =>
       match mode_map_find mode_map m with
       | Some code => Ok (modes ++ [code])%list
       | None => Raise (ValueError ("Invalid mode: " ++ m))
       end)
    acc
  = match List.find (fun m => negb (known_mode m)) words with
    | Some m => Raise (ValueError ("Invalid mode: " ++ m))
    | None =>
        Ok (acc ++ List.map mode_code words)%list
    end.
Proof.
  revert acc. induction words as [|m words IH]; intros acc;
    cbn [for_each List.find List.map].
  - rewrite app_nil_r. reflexivity.
  - unfold known_mode at 1, mode_code at 1.
    destruct (mode_map_find mode_map m) as [code|];
      cbn [mbind result_bind bind negb]; [|reflexivity].
    rewrite IH.
    destruct (List.find (fun m0 => negb (known_mode m0)) words);
      [reflexivity|].
    rewrite <- app_assoc. reflexivity.
Qed.

(** X9.  [file_access] validates every word of the mode before it asks
    for any access: if a word is not one of exists, read, write and execute
    it raises ValueError naming the first such word, whatever the access to
    the path; otherwise it answers the conjunction of the accesses named by
    the words. *)
Theorem X9_access_validates_then_conjoins
    (os_access : string -> Z -> bool) (path mode : string) :
  file_access os_access path mode
  = match List.find (fun m => negb (known_mode m))
            (split_whitespace mode) with
    | Some m => Raise (ValueError ("Invalid mode: " ++ m))
    | None =>
        Ok (forallb
              (fun m => os_access path (mode_code m))
              (split_whitespace mode))
    end.
Proof.
  unfold file_access, collect_modes. rewrite collect_modes_from.
  destruct (List.find _ (split_whitespace mode)); [reflexivity|]. simpl.
  f_equal. induction (split_whitespace mode) as [|m ms IH]; simpl;
    [reflexivity | rewrite IH; reflexivity].
Qed.

Example access_read_write (os_access : string -> Z -> bool) (path : string) :
  file_access os_access path " read   write"
  = Ok (os_access path 4 && (os_access path 2 && true)).
Proof. reflexivity. Qed.

Example access_unknown_word (os_access : string -> Z -> bool) (path : string) :
  file_access os_access path "read rw write" = Raise (ValueError "Invalid mode: rw").
Proof. reflexivity. Qed.

(** ** [path_sanitize] *)

Lemma substring_length_le (n : nat) (s : string) :
  (String.length (String.substring 0 n s) <= n)%nat.
Proof.
  revert s. induction n as [|n IH]; intros s; destruct s as [|c s]; simpl;
    try lia. specialize (IH s). lia.
Qed.

Lemma substring_short (n : nat) (s : string) :
  (String.length s <= n)%nat -> String.substring 0 n s = s.
Proof.
  revert s. induction n as [|n IH]; intros s; destruct s as [|c s]; simpl;
    intros H; try reflexivity; try lia.
  rewrite IH by lia. reflexivity.
Qed.

Lemma substring_chars (P : ascii -> Prop) (n : nat) (s : string) :
  Forall P (PyStr.chars s) -> Forall P (PyStr.chars (String.substring 0 n s)).
Proof.
  revert s. induction n as [|n IH]; intros s Hs; destruct s as [|c s]; simpl;
    try constructor.
  - inversion Hs; assumption.
  - apply IH. inversion Hs; assumption.
Qed.

Lemma substring_no_dot_run (n : nat) (s : string) :
  no_dot_run s = true -> no_dot_run (String.substring 0 n s) = true.
Proof.
  revert s. induction n as [|n IH]; intros s Hs; destruct s as [|c s];
    try reflexivity.
  simpl String.substring. specialize (IH s).
  destruct s as [|c' s]; [destruct n; reflexivity|].
  simpl in Hs. apply andb_true_iff in Hs as [Hcc Hs].
  destruct n as [|n]; [reflexivity|].
  simpl String.substring in *. simpl no_dot_run.
  rewrite Hcc. simpl. apply IH. exact Hs.
Qed.

Lemma sub_unsafe_erase_safe (s : string) :
  Forall (fun c => is_safe_char c = true)
    (PyStr.chars (sub_unsafe (fun _ => "") s)).
Proof.
  induction s as [|c s IH]; simpl; [constructor|].
  destruct (is_safe_char c) eqn:Hc; simpl; [constructor; assumption | exact IH].
Qed.

Lemma sub_unsafe_fixed (repl : string -> string) (s : string) :
  Forall (fun c => is_safe_char c = true) (PyStr.chars s) ->
  sub_unsafe repl s = s.
Proof.
  induction s as [|c s IH]; intros Hs; simpl; [reflexivity|].
  inversion Hs as [|? ? Hc Hs']; subst. rewrite Hc, (IH Hs'). reflexivity.
Qed.

Lemma sub_dot_runs_erase_chars (P : ascii -> Prop) (in_run : bool) (s : string) :
  Forall P (PyStr.chars s) ->
  Forall P (PyStr.chars (sub_dot_runs (fun _ => "") in_run s)).
Proof.
  revert in_run. induction s as [|c s IH]; intros in_run Hs; simpl;
    [constructor|].
  inversion Hs as [|? ? Hc Hs']; subst.
  destruct (is_dot c).
  - destruct in_run; [apply IH; exact Hs'|].
    destruct s as [|c' s]; [repeat constructor; exact Hc|].
    destruct (is_dot c'); simpl.
    + apply (IH true). exact Hs'.
    + constructor; [exact Hc | apply (IH false); exact Hs'].
  - simpl. constructor; [exact Hc | apply IH; exact Hs'].
Qed.

Lemma no_dot_run_cons (c : ascii) (s : string) :
  no_dot_run (String c s)
  = negb (is_dot c && starts_with_dot s) && no_dot_run s.
Proof. destruct s as [|c' s]; simpl; [rewrite andb_false_r|]; reflexivity. Qed.

(** Erasing the runs leaves no run, and what is left begins with a dot
    only if the text did. *)
Lemma sub_dot_runs_erase_no_run (in_run : bool) (s : string) :
  no_dot_run (sub_dot_runs (fun _ => "") in_run s) = true
  /\ (starts_with_dot (sub_dot_runs (fun _ => "") in_run s) = true ->
      starts_with_dot s = true).
Proof.
  revert in_run. induction s as [|c s IH]; intros in_run;
    [split; [reflexivity | discriminate]|].
  cbn [sub_dot_runs]. destruct (is_dot c) eqn:Hc.
  - destruct in_run.
    + split; [apply IH | intros _; exact Hc].
    + destruct s as [|c' s]; [split; [reflexivity | intros _; exact Hc]|].
      destruct (is_dot c') eqn:Hc'.
      * cbn [String.append]. split; [apply (IH true) | intros _; exact Hc].
      * split; [|intros _; exact Hc].
        rewrite no_dot_run_cons. destruct (IH false) as [Hno Hstart].
        rewrite Hno, andb_true_r.
        destruct (starts_with_dot (sub_dot_runs (fun _ => "") false (String c' s)))
          eqn:Hd; [|rewrite andb_false_r; reflexivity].
        specialize (Hstart eq_refl). simpl in Hstart. congruence.
  - split.
    + rewrite no_dot_run_cons, Hc. simpl. apply IH.
    + simpl. rewrite Hc. discriminate.
Qed.

Lemma sub_dot_runs_fixed (repl : string -> string) (s : string) :
  no_dot_run s = true -> sub_dot_runs repl false s = s.
Proof.
  induction s as [|c s IH]; intros Hs; [reflexivity|].
  rewrite no_dot_run_cons in Hs. apply andb_true_iff in Hs as [Hcc Hs].
  cbn [sub_dot_runs]. destruct (is_dot c).
  - destruct s as [|c' s]; [reflexivity|].
    simpl in Hcc. destruct (is_dot c'); [discriminate|].
    rewrite (IH Hs). reflexivity.
  - rewrite (IH Hs). reflexivity.
Qed.

Lemma upper_length (s : string) : String.length (PyStr.upper s) = String.length s.
Proof. induction s as [|c s IH]; simpl; [reflexivity | rewrite IH; reflexivity]. Qed.

Lemma reserved_short (name : string) :
  is_reserved name = true -> (String.length name <= 4)%nat.
Proof.
  unfold is_reserved. rewrite existsb_exists. intros [r [Hin Heq]].
  apply String.eqb_eq in Heq. rewrite <- (upper_length name), Heq.
  simpl in Hin.
  repeat (destruct Hin as [<- | Hin]; [simpl; lia|]). destruct Hin.
Qed.

Lemma substring_not_reserved (s : string) :
  is_reserved s = false -> is_reserved (String.substring 0 255 s) = false.
Proof.
  intros Hs. destruct (Nat.le_gt_cases (String.length s) 255) as [Hle | Hgt].
  - rewrite substring_short by exact Hle. exact Hs.
  - destruct (is_reserved (String.substring 0 255 s)) eqn:Hr; [|reflexivity].
    apply reserved_short in Hr. exfalso.
    assert (Hlen : forall n t, (n <= String.length t)%nat ->
              String.length (String.substring 0 n t) = n).
    { induction n as [|n IH]; intros t Ht; destruct t as [|c t]; simpl in *;
        try reflexivity; try lia. rewrite IH by lia. reflexivity. }
    rewrite Hlen in Hr by lia. lia.
Qed.

(** With a replacement that has no backslash nothing is compiled. *)
Lemma path_sanitize_literal
    (compile_template : string -> result (string -> string))
    (filename replacement : string) :
  has_backslash replacement = false ->
  path_sanitize compile_template filename replacement
  = Ok (String.substring 0 255
          (if is_reserved
                (sub_dot_runs (fun _ => replacement) false
                   (sub_unsafe (fun _ => replacement) filename))
           then replacement
           else sub_dot_runs (fun _ => replacement) false
                  (sub_unsafe (fun _ => replacement) filename))).
Proof.
  intros Hb. unfold path_sanitize, template. rewrite Hb. reflexivity.
Qed.

(** X10.  With a replacement that has no backslash in it [path_sanitize]
    always returns, and what it returns has at most 255 characters. *)
Theorem X10_sanitize_returns_at_most_255
    (compile_template : string -> result (string -> string))
    (filename replacement : string) :
  has_backslash replacement = false ->
  exists r, path_sanitize compile_template filename replacement = Ok r
            /\ (String.length r <= 255)%nat.
Proof.
  intros Hb. unfold path_sanitize, template. rewrite Hb. simpl.
  eexists. split; [reflexivity | apply substring_length_le].
Qed.

Lemma X10_sanitize_returns_at_most_255_witness :
  exists r, path_sanitize (fun _ => Raise (ReError "bad escape")) "a b" "_" = Ok r
            /\ (String.length r <= 255)%nat.
Proof.
  apply (X10_sanitize_returns_at_most_255
           (fun _ => Raise (ReError "bad escape")) "a b" "_").
  reflexivity.
Defined.

Lemma sanitized_default_clean (filename : string) :
  Forall (fun c => is_safe_char c = true) (PyStr.chars (sanitized_default filename))
  /\ no_dot_run (sanitized_default filename) = true
  /\ is_reserved (sanitized_default filename) = false
  /\ (String.length (sanitized_default filename) <= 255)%nat.
Proof.
  unfold sanitized_default.
  set (clean := sub_dot_runs (fun _ => "") false (sub_unsafe (fun _ => "") filename)).
  assert (Hsafe : Forall (fun c => is_safe_char c = true) (PyStr.chars clean)).
  { apply sub_dot_runs_erase_chars. apply sub_unsafe_erase_safe. }
  assert (Hrun : no_dot_run clean = true) by apply sub_dot_runs_erase_no_run.
  split; [|split; [|split; [|apply substring_length_le]]].
  - apply substring_chars. destruct (is_reserved clean); [constructor | exact Hsafe].
  - apply substring_no_dot_run. destruct (is_reserved clean); [reflexivity | exact Hrun].
  - apply substring_not_reserved.
    destruct (is_reserved clean) eqn:Hres; [reflexivity | exact Hres].
Qed.

(** X11.  With the empty replacement the sanitized name consists of
    letters, digits, underscores, dots and hyphens only, has no two dots side
    by side, and is not a reserved device name in any case. *)
Theorem X11_sanitize_default_is_clean
    (compile_template : string -> result (string -> string))
    (filename : string) :
  exists r, path_sanitize compile_template filename "" = Ok r
            /\ Forall (fun c => is_safe_char c = true) (PyStr.chars r)
            /\ no_dot_run r = true
            /\ is_reserved r = false.
Proof.
  exists (sanitized_default filename). split; [reflexivity|].
  pose proof (sanitized_default_clean filename) as (Hsafe & Hrun & Hres & _).
  auto.
Qed.

(** X12.  A name that is already clean comes back unchanged, whatever
    the replacement without backslash: only safe characters, no two dots side
    by side, not a reserved name, at most 255 characters. *)
Theorem X12_sanitize_keeps_clean_names
    (compile_template : string -> result (string -> string))
    (filename replacement : string) :
  has_backslash replacement = false ->
  Forall (fun c => is_safe_char c = true) (PyStr.chars filename) ->
  no_dot_run filename = true ->
  is_reserved filename = false ->
  (String.length filename <= 255)%nat ->
  path_sanitize compile_template filename replacement = Ok filename.
Proof.
  intros Hb Hsafe Hrun Hres Hlen. unfold path_sanitize, template.
  rewrite Hb. simpl.
  rewrite (sub_unsafe_fixed _ filename Hsafe), (sub_dot_runs_fixed _ filename Hrun).
  rewrite Hres, (substring_short 255 filename Hlen). reflexivity.
Qed.

Lemma X12_sanitize_keeps_clean_names_witness :
  path_sanitize (fun _ => Raise (ReError "bad escape")) "report-2.txt" "_"
  = Ok "report-2.txt".
Proof.
  apply (X12_sanitize_keeps_clean_names
           (fun _ => Raise (ReError "bad escape")) "report-2.txt" "_").
  - reflexivity.
  - repeat constructor.
  - reflexivity.
  - reflexivity.
  - simpl. lia.
Defined.

(** X13.  With the empty replacement sanitizing twice is the same as
    sanitizing once. *)
Theorem X13_sanitize_default_idempotent
    (compile_template : string -> result (string -> string))
    (filename : string) :
  (r ← path_sanitize compile_template filename "";
   path_sanitize compile_template r "")
  = path_sanitize compile_template filename "".
Proof.
  change (path_sanitize compile_template filename "")
    with (@Ok string (sanitized_default filename)).
  cbn [mbind result_bind bind].
  pose proof (sanitized_default_clean filename) as (Hsafe & Hrun & Hres & Hlen).
  rewrite path_sanitize_literal by reflexivity.
  rewrite (sub_unsafe_fixed _ _ Hsafe), (sub_dot_runs_fixed _ _ Hrun).
  rewrite Hres, (substring_short 255 _ Hlen). reflexivity.
Qed.

(** ** The stack of temporary paths *)

Lemma list_pop_app {A : Type} (l : list A) (x : A) :
  list_pop (l ++ [x]) = Some (x, l).
Proof.
  induction l as [|a l IH]; simpl; [reflexivity | rewrite IH; reflexivity].
Qed.



(** X14.  The stack of temporary paths is last in, first out: popping
    after pushing [path] gives [path] back and leaves the stack as it was
    before the push; popping the empty stack gives nothing and leaves it
    empty. *)
Theorem X14_temp_push_then_pop (path : string) (stack : list string) :
  file_temp_pop (snd (file_temp_push path stack)) = (Some path, stack)
  /\ fst (file_temp_push path stack) = path
  /\ file_temp_pop [] = (None, []).
Proof.
  unfold file_temp_pop, file_temp_push. simpl.
  rewrite list_pop_app. repeat split.
Qed.

(** X15.  Paths pushed one after the other come back, pop after pop, in
    the reverse order, and the stack is then as it was before the pushes. *)
Theorem X15_temp_stack_reverses (paths stack : list string) :
  pop_all (List.length paths)
    (fold_left (fun st p => snd (file_temp_push p st)) paths stack)
  = (List.map Some (rev paths), stack).
Proof.
  revert stack. induction paths as [|p paths IH] using rev_ind; intros stack;
    [reflexivity|].
  rewrite fold_left_app, length_app, Nat.add_comm, rev_unit. simpl.
  unfold file_temp_pop. rewrite list_pop_app. rewrite IH. reflexivity.
Qed.

Section TempFilesProperties.

Variable World : Type.
Variable world_is_file world_is_symlink world_is_dir : World -> string -> bool.
Variable unlink rmtree : string -> World -> World * option exn.


End TempFilesProperties.


Example cleanup_goes_on_after_failure :
  cleanup_temp_files (list string)
    (fun _ _ => true) (fun _ _ => false) (fun _ _ => false)
    (fun path w =>
       if String.eqb path "b" then (w, Some (OSError "busy"))
       else ((w ++ [path])%list, None))
    (fun _ w => (w, None))
    ["a"; "b"; "c"] []
  = ([], (["c"; "a"], [("b", OSError "busy")])).
Proof. reflexivity. Qed.

(** ** More on [dir_ls] *)

Lemma kept_visible
    (path_match re_search : string -> string -> result bool)
    (all : bool) (type_filter : string) (glob regexp : option string)
    (invert : bool) (p : Path) :
  kept path_match re_search all type_filter glob regexp invert p = true ->
  visible all p = true.
Proof.
  unfold kept, dir_ls_visit, visible.
  destruct (negb all && PyStr.startswith (name p) "."); [discriminate | reflexivity].
Qed.

(** X17.  Unless [all] is set, no path that [dir_ls] returns has a name
    that begins with a dot. *)
Theorem X17_ls_returns_no_hidden_name
    (path_match re_search : string -> string -> result bool)
    (fs : FileSystem) (path : string) (recurse : bool)
    (type_filter : string) (glob regexp : option string) (invert fail : bool)
    (results : list Path) :
  dir_ls path_match re_search fs path false recurse type_filter glob regexp
    invert fail = Ok results ->
  Forall (fun p => PyStr.startswith (name p) "." = false) results.
Proof.
  unfold dir_ls. destruct (negb (fs_exists fs path)).
  { destruct fail; [discriminate | intros [= <-]; constructor]. }
  destruct (negb (fs_is_dir fs path)); [discriminate|].
  match goal with
  | |- match ?loop with _ => _ end = _ -> _ => destruct loop as [rs|e] eqn:Hloop
  end; [|discriminate].
  intros [= <-]. apply dir_ls_loop_order in Hloop. subst rs. simpl.
  apply List.Forall_forall. intros p Hp. apply filter_In in Hp as [_ Hk].
  apply kept_visible in Hk. unfold visible in Hk. simpl in Hk.
  destruct (PyStr.startswith (name p) "."); [discriminate | reflexivity].
Qed.

Lemma X17_ls_returns_no_hidden_name_witness :
  Forall (fun p => PyStr.startswith (name p) "." = false)
    [regular_file "d/a.txt" "a.txt"].
Proof.
  apply (X17_ls_returns_no_hidden_name (fun _ _ => Ok true) (fun _ _ => Ok true)
    (every_directory_lists
       (of_list [regular_file "d/.git" ".git"; regular_file "d/a.txt" "a.txt"]))
    "d" false "any" None None false true).
  reflexivity.
Defined.

(** X18.  With a type filter other than "any", [dir_ls] never returns a
    path: it raises, or it returns the empty list. *)
Theorem X18_ls_kind_filter_returns_nothing
    (path_match re_search : string -> string -> result bool)
    (fs : FileSystem) (path : string) (all recurse : bool)
    (type_filter : string) (glob regexp : option string) (invert fail : bool)
    (results : list Path) :
  type_filter <> "any" ->
  dir_ls path_match re_search fs path all recurse type_filter glob regexp invert fail
  = Ok results ->
  results = [].
Proof.
  intros Hne Hls.
  apply (dir_ls_kind_filter_returns_nothing path_match re_search fs path all
           recurse type_filter glob regexp invert fail); assumption.
Qed.

Lemma X18_ls_kind_filter_returns_nothing_witness :
  [] = @nil Path.
Proof.
  symmetry.
  apply (X18_ls_kind_filter_returns_nothing (fun _ _ => Ok true) (fun _ _ => Ok true)
    (every_directory_lists (of_list [mkPath "d/sub" "sub" false true false]))
    "d" false false "file" None None false true).
  - discriminate.
  - reflexivity.
Defined.

Lemma dir_ls_loop_total
    (path_match re_search : string -> string -> result bool)
    (all : bool) (glob regexp : option string) (invert : bool)
    (glob_found regexp_found : Path -> bool) (ps : list Path) :
  (forall p g, In p ps -> truthy glob = Some g ->
     path_match g (str p) = Ok (glob_found p)) ->
  (forall p r, In p ps -> truthy regexp = Some r ->
     re_search r (str p) = Ok (regexp_found p)) ->
  forall acc,
    dir_ls_loop path_match re_search all "any" glob regexp invert (of_list ps) acc
    = Ok (acc ++ List.filter
                   (fun p => visible all p
                             && pattern_passes glob invert (glob_found p)
                             && pattern_passes regexp invert (regexp_found p))
                   ps)%list.
Proof.
  intros Hg Hr. induction ps as [|p ps IH]; intros acc; simpl.
  - rewrite app_nil_r. reflexivity.
  - assert (Hvisit :
      dir_ls_visit path_match re_search all "any" glob regexp invert p
      = Ok (visible all p && pattern_passes glob invert (glob_found p)
            && pattern_passes regexp invert (regexp_found p))).
    { unfold dir_ls_visit, visible, pattern_passes, match_condition.
      destruct (negb all && PyStr.startswith (name p) "."); [reflexivity|].
      simpl.
      destruct (truthy glob) as [g|] eqn:Hglob.
      - rewrite (Hg p g (or_introl eq_refl) eq_refl). simpl.
        destruct (truthy regexp) as [r|] eqn:Hregexp.
        + rewrite (Hr p r (or_introl eq_refl) eq_refl).
          destruct (glob_found p), (regexp_found p), invert; reflexivity.
        + destruct (glob_found p), invert; reflexivity.
      - simpl. destruct (truthy regexp) as [r|] eqn:Hregexp.
        + rewrite (Hr p r (or_introl eq_refl) eq_refl).
          destruct (regexp_found p), invert; reflexivity.
        + reflexivity. }
    rewrite Hvisit. simpl.
    rewrite IH.
    + destruct (visible all p && pattern_passes glob invert (glob_found p)
                && pattern_passes regexp invert (regexp_found p));
        [rewrite <- app_assoc|]; reflexivity.
    + intros q g Hq. apply Hg. right. exact Hq.
    + intros q r Hq. apply Hr. right. exact Hq.
Qed.

(** X20.  With the type filter "any", on a directory whose listing runs
    to its end and with matchers that answer on every listed path,
    [dir_ls] returns exactly the listed paths, in order, that are visible and
    that pass each active pattern, where passing means matching when [invert]
    is off and not matching when it is on.  So with both patterns and
    [invert] on, a path is returned when it matches neither. *)
Theorem X20_ls_is_a_filter
    (path_match re_search : string -> string -> result bool)
    (fs : FileSystem) (path : string) (all recurse : bool)
    (glob regexp : option string) (invert fail : bool)
    (glob_found regexp_found : Path -> bool) (ps : list Path) :
  fs_exists fs path = true -> fs_is_dir fs path = true ->
  (if recurse then fs_rglob fs path else fs_iterdir fs path) = of_list ps ->
  (forall p g, In p ps -> truthy glob = Some g ->
     path_match g (str p) = Ok (glob_found p)) ->
  (forall p r, In p ps -> truthy regexp = Some r ->
     re_search r (str p) = Ok (regexp_found p)) ->
  dir_ls path_match re_search fs path all recurse "any" glob regexp invert fail
  = Ok (List.filter
          (fun p => visible all p
                    && pattern_passes glob invert (glob_found p)
                    && pattern_passes regexp invert (regexp_found p))
          ps).
Proof.
  intros Hex Hdir Hit Hg Hr. unfold dir_ls. rewrite Hex, Hdir. simpl.
  rewrite Hit.
  rewrite (dir_ls_loop_total path_match re_search all glob regexp invert
             glob_found regexp_found ps Hg Hr []).
  reflexivity.
Qed.

Lemma X20_ls_is_a_filter_witness :
  dir_ls (fun pat s => Ok (String.prefix pat s))
    (fun pat s => Ok (String.eqb pat s))
    (every_directory_lists
       (of_list [regular_file "a.txt" "a.txt"; regular_file "b.txt" "b.txt";
                 regular_file "c.txt" "c.txt"]))
    "d" false false "any" (Some "a") (Some "b.txt") true true
  = Ok [regular_file "c.txt" "c.txt"].
Proof.
  apply (X20_ls_is_a_filter (fun pat s => Ok (String.prefix pat s))
           (fun pat s => Ok (String.eqb pat s))
           (every_directory_lists
              (of_list [regular_file "a.txt" "a.txt"; regular_file "b.txt" "b.txt";
                        regular_file "c.txt" "c.txt"]))
           "d" false false (Some "a") (Some "b.txt") true true
           (fun p => String.prefix "a" (str p))
           (fun p => String.eqb "b.txt" (str p))
           [regular_file "a.txt" "a.txt"; regular_file "b.txt" "b.txt";
            regular_file "c.txt" "c.txt"]).
  - reflexivity.
  - reflexivity.
  - reflexivity.
  - intros p g _ [= <-]. reflexivity.
  - intros p r _ [= <-]. reflexivity.
Defined.

(** ** [file_info], [file_size] and [dir_info] *)

Section FileInfoProperties.

Variable Time : Type.
Variable nt : bool.
Variable path_stat path_lstat : Path -> result (stat_result Time).
Variable getgrgid_name getpwuid_name : Z -> result string.

Lemma build_info_path (p : Path) (st : stat_result Time) (i : info Time) :
  build_info Time nt getgrgid_name getpwuid_name p st = Ok i ->
  info_path i = str p /\ info_size i = st_size st
  /\ info_permissions i = S_IMODE (st_mode st).
Proof.
  unfold build_info.
  match goal with
  | |- mbind _ ?names = _ -> _ => destruct names as [ns|e]
  end; simpl; [|discriminate].
  intros [= <-]. simpl. auto.
Qed.

Lemma build_info_posix (p : Path) (st : stat_result Time) :
  nt = false ->
  returns (build_info Time nt getgrgid_name getpwuid_name p st)
  = returns (getgrgid_name (st_gid st)) && returns (getpwuid_name (st_uid st)).
Proof.
  intros ->. unfold build_info. simpl.
  destruct (getgrgid_name (st_gid st)); simpl; [|reflexivity].
  destruct (getpwuid_name (st_uid st)); reflexivity.
Qed.


End FileInfoProperties.

(** X21.  [file_size] with [fail] off never raises.  Where the operating
    system is not Windows it returns a size exactly when [stat] succeeds and
    the group and the user that own the file are both found by name: when
    either lookup fails the size is not returned although [stat] gave it. *)
Theorem X21_file_size_needs_owner_names
    (Time : Type) (nt : bool)
    (path_stat path_lstat : Path -> result (stat_result Time))
    (getgrgid_name getpwuid_name : Z -> result string)
    (p : Path) (fail : bool) (n : Z) :
  nt = false ->
  returns (file_size Time nt path_stat path_lstat getgrgid_name getpwuid_name
             p false) = true
  /\ (file_size Time nt path_stat path_lstat getgrgid_name getpwuid_name p fail
      = Ok (Some n)
      <-> exists st,
            path_stat p = Ok st /\ st_size st = n
            /\ returns (getgrgid_name (st_gid st)) = true
            /\ returns (getpwuid_name (st_uid st)) = true).
Proof.
  intros Hnt. unfold file_size, file_info. simpl. split.
  - destruct (path_stat p) as [st|e]; simpl; [|reflexivity].
    destruct (build_info Time nt getgrgid_name getpwuid_name p st); reflexivity.
  - destruct (path_stat p) as [st|e]; simpl.
    + pose proof (build_info_posix Time nt getgrgid_name getpwuid_name p st Hnt)
        as Hposix.
      destruct (build_info Time nt getgrgid_name getpwuid_name p st) as [i|e]
        eqn:Hb; simpl in *.
      * apply build_info_path in Hb as (_ & Hsize & _).
        symmetry in Hposix. apply andb_true_iff in Hposix as [Hg Hu]. split.
        -- intros [= <-]. exists st. auto.
        -- intros (st' & [= <-] & <- & _). rewrite Hsize. reflexivity.
      * symmetry in Hposix. apply andb_false_iff in Hposix. split.
        -- destruct fail; discriminate.
        -- intros (st' & [= <-] & _ & Hg & Hu). destruct Hposix; congruence.
    + split.
      * destruct fail; discriminate.
      * intros (st & Hst & _). discriminate.
Qed.

Lemma X21_file_size_needs_owner_names_witness :
  returns (file_size unit false
             (fun _ => Ok (mkStat 33188 1 2 1 1000 1000 42 tt tt tt None))
             (fun _ => Raise (OSError "unused"))
             (fun _ => Raise KeyError) (fun _ => Ok "user")
             (regular_file "a.txt" "a.txt") false) = true
  /\ (file_size unit false
        (fun _ => Ok (mkStat 33188 1 2 1 1000 1000 42 tt tt tt None))
        (fun _ => Raise (OSError "unused"))
        (fun _ => Raise KeyError) (fun _ => Ok "user")
        (regular_file "a.txt" "a.txt") false
      = Ok (Some 42)
      <-> exists st,
            (fun _ : Path => Ok (mkStat 33188 1 2 1 1000 1000 42 tt tt tt None))
              (regular_file "a.txt" "a.txt") = Ok st
            /\ st_size st = 42
            /\ returns ((fun _ : Z => @Raise string KeyError) (st_gid st)) = true
            /\ returns ((fun _ : Z => Ok "user") (st_uid st)) = true).
Proof.
  apply (X21_file_size_needs_owner_names unit false
           (fun _ => Ok (mkStat 33188 1 2 1 1000 1000 42 tt tt tt None))
           (fun _ => Raise (OSError "unused"))
           (fun _ => Raise KeyError) (fun _ => Ok "user")
           (regular_file "a.txt" "a.txt") false 42).
  reflexivity.
Defined.


(** X23.  The permissions that [file_info] reports lie in [0, 0o7777],
    whatever mode [stat] gives, and the size is the one [stat] gives. *)
Theorem X23_file_info_permissions_range
    (Time : Type) (nt : bool)
    (path_stat path_lstat : Path -> result (stat_result Time))
    (getgrgid_name getpwuid_name : Z -> result string)
    (p : Path) (fail follow : bool) (i : info Time) :
  file_info Time nt path_stat path_lstat getgrgid_name getpwuid_name p fail follow
  = Ok (Some i) ->
  0 <= info_permissions i <= 4095
  /\ exists st,
       (if follow then path_stat p else path_lstat p) = Ok st
       /\ info_permissions i = Z.land (st_mode st) 4095
       /\ info_size i = st_size st.
Proof.
  unfold file_info.
  destruct (if follow then path_stat p else path_lstat p) as [st|e]; simpl.
  - destruct (build_info Time nt getgrgid_name getpwuid_name p st) as [i'|e] eqn:Hb.
    + intros [= <-]. apply build_info_path in Hb as (_ & Hsize & Hperm).
      split.
      * rewrite Hperm. unfold S_IMODE. change 4095 with (Z.ones 12) at 1 2.
        rewrite Z.land_ones by lia.
        pose proof (Z.mod_pos_bound (st_mode st) (2 ^ 12) ltac:(lia)). lia.
      * exists st. auto.
    + destruct fail; discriminate.
  - destruct fail; discriminate.
Qed.

Lemma X23_file_info_permissions_range_witness :
  0 <= 420 <= 4095
  /\ exists st,
       Ok (mkStat 33188 1 2 1 1000 1000 42 tt tt tt None) = Ok st
       /\ 420 = Z.land (st_mode st) 4095
       /\ 42 = st_size st.
Proof.
  apply (X23_file_info_permissions_range unit true
           (fun _ => Ok (mkStat 33188 1 2 1 1000 1000 42 tt tt tt None))
           (fun _ => Raise (OSError "unused"))
           (fun _ => Raise KeyError) (fun _ => Raise KeyError)
           (regular_file "a.txt" "a.txt") true true
           (mkInfo unit "a.txt" "file" 42 420 tt None None 2 1 1 tt tt None)).
  reflexivity.
Defined.
